(** * Metabase MCP bridge: validation and repair

    A shallow embedding of [bridging-architecture/validation/validate-and-repair.py]
    (class [MetabaseBridgeValidator]) together with the properties of its
    evaluator, repair engine and health scorer.

    Modelling choices, all visible in the definitions below:
    - the artifact tree is a tree of directories and regular files; a
      directory carries a flag saying whether entries may be created in it,
      a file carries read and write flags.  Search permission on directories
      and symbolic links are not modelled;
    - Python exceptions are the [OSError]s the file system calls can raise;
      a method is a state transformer that returns a value or raises, and
      the mutations made before a raise stay in the state;
    - [time.time()] reads a clock that the run cannot influence: the state
      carries the sequence of readings and the number of readings consumed;
    - [print] only writes to the console and is left out;
    - floats are IEEE 754 binary64, the kernel's primitive floats. *)

From Stdlib Require Import Floats.PrimFloat Numbers.Cyclic.Int63.Uint63.
From Stdlib Require Import QArith.QArith_base Strings.Ascii.
From stdpp Require Import gmap strings list fin_maps pretty.

Set Warnings "-register-all".

(* ===================================================================== *)
(** ** Python strings *)
(* ===================================================================== *)

(** [needle in hay] on Python [str]: substring containment. *)
Fixpoint contains (needle hay : string) : bool :=
  String.prefix needle hay ||
  match hay with
  | EmptyString => false
  | String _ hay' => contains needle hay'
  end.

(** [sep.join(l)]. *)
Fixpoint join (sep : string) (l : list string) : string :=
  match l with
  | [] => ""
  | [x] => x
  | x :: l' => x +:+ sep +:+ join sep l'
  end.

(** [repr] of a [str] that holds no quote, backslash or control character
    (all the keywords of the checklist are such strings). *)
Definition py_repr (s : string) : string := "'" +:+ s +:+ "'".

(** What an f-string prints for a list of such strings:
    [['name:', 'targets:']]. *)
Definition py_repr_list (l : list string) : string :=
  "[" +:+ join ", " (py_repr <$> l) +:+ "]".

Definition dquote : string := String "034"%char EmptyString.
Definition newline : string := String "010"%char EmptyString.

(* ===================================================================== *)
(** ** The artifact tree (what [pathlib] and [open] act on) *)
(* ===================================================================== *)

(** An absolute path, as its components below the root. *)
Definition path : Type := list string.

(** [str(path)]. *)
Definition path_str (p : path) : string := "/" +:+ join "/" p.

Inductive node : Type :=
  | File (readable writable : bool) (content : string)
  | Dir (writable : bool) (entries : gmap string node).

Inductive errno : Type := ENOENT | ENOTDIR | EISDIR | EACCES | EEXIST.

(** An [OSError]: its subclass is fixed by the error number
    ([FileNotFoundError], [NotADirectoryError], [IsADirectoryError],
    [PermissionError], [FileExistsError]). *)
Inductive exn : Type := OSError (e : errno) (filename : path).

Definition strerror (e : errno) : string :=
  match e with
  | ENOENT => "[Errno 2] No such file or directory"
  | ENOTDIR => "[Errno 20] Not a directory"
  | EISDIR => "[Errno 21] Is a directory"
  | EACCES => "[Errno 13] Permission denied"
  | EEXIST => "[Errno 17] File exists"
  end.

(** [str(e)] as the f-string of the [except] clause prints it. *)
Definition exn_str (x : exn) : string :=
  match x with
  | OSError e p => strerror e +:+ ": " +:+ py_repr (path_str p)
  end.

(** [os.stat]: walk the path from the root. *)
Fixpoint stat (n : node) (p : path) : errno + node :=
  match p with
  | [] => inr n
  | x :: p' =>
      match n with
      | File _ _ _ => inl ENOTDIR
      | Dir _ es =>
          match es !! x with
          | None => inl ENOENT
          | Some c => stat c p'
          end
      end
  end.

(** [Path.exists()]: a failing [stat] (no such entry, or a component that
    is not a directory) reads as "does not exist". *)
Definition exists_ (root : node) (p : path) : bool :=
  match stat root p with inr _ => true | inl _ => false end.

(** [Path.is_dir()]. *)
Definition is_dir (root : node) (p : path) : bool :=
  match stat root p with inr (Dir _ _) => true | _ => false end.

(** [open(p, 'r').read()]. *)
Definition read_text (root : node) (p : path) : exn + string :=
  match stat root p with
  | inr (File true _ content) => inr content
  | inr (File false _ _) => inl (OSError EACCES p)
  | inr (Dir _ _) => inl (OSError EISDIR p)
  | inl e => inl (OSError e p)
  end.

(** A system call that acts on the last component of a path: resolve the
    directory that holds it, then let [leaf] decide from that directory's
    write flag and the entry found there. *)
Fixpoint update_entry (root_err : errno)
    (leaf : bool → option node → errno + node)
    (n : node) (p : path) : errno + node :=
  match p with
  | [] => inl root_err
  | x :: p' =>
      match n with
      | File _ _ _ => inl ENOTDIR
      | Dir w es =>
          match p' with
          | [] =>
              match leaf w (es !! x) with
              | inl e => inl e
              | inr c => inr (Dir w (<[x := c]> es))
              end
          | _ :: _ =>
              match es !! x with
              | None => inl ENOENT
              | Some c =>
                  match update_entry root_err leaf c p' with
                  | inl e => inl e
                  | inr c' => inr (Dir w (<[x := c']> es))
                  end
              end
          end
      end
  end.

Definition mkdir_leaf (w : bool) (old : option node) : errno + node :=
  match old with
  | Some _ => inl EEXIST
  | None => if w then inr (Dir true ∅) else inl EACCES
  end.

(** [os.mkdir(p)]. *)
Definition os_mkdir (root : node) (p : path) : errno + node :=
  update_entry EEXIST mkdir_leaf root p.

Definition write_leaf (text : string) (w : bool) (old : option node)
    : errno + node :=
  match old with
  | Some (File r fw _) => if fw then inr (File r fw text) else inl EACCES
  | Some (Dir _ _) => inl EISDIR
  | None => if w then inr (File true true text) else inl EACCES
  end.

(** [open(p, 'w').write(text)] followed by the close of the [with] block. *)
Definition write_text (root : node) (p : path) (text : string) : exn + node :=
  match update_entry EISDIR (write_leaf text) root p with
  | inl e => inl (OSError e p)
  | inr root' => inr root'
  end.

(** [Path.mkdir(parents=False, exist_ok=True)]: [FileNotFoundError] is
    re-raised, any other [OSError] is swallowed when the path is a
    directory.  The result is the exception raised, if any, and the tree
    the call leaves. *)
Definition mkdir_exist_ok (root : node) (p : path) : option exn * node :=
  match os_mkdir root p with
  | inr root' => (None, root')
  | inl ENOENT => (Some (OSError ENOENT p), root)
  | inl e => if is_dir root p then (None, root) else (Some (OSError e p), root)
  end.

(** [Path.mkdir(parents=True, exist_ok=True)] as pathlib writes it: try
    [os.mkdir]; on [FileNotFoundError] make the parent the same way and
    then the path itself; on another [OSError] succeed only if the path is
    a directory.  The recursion follows the path from its last component,
    so it takes the path reversed.  Directories made before a failure stay
    in the tree that is returned. *)
Fixpoint mkdir_parents_rev (root : node) (rp : list string) : option exn * node :=
  let p := rev rp in
  match os_mkdir root p with
  | inr root' => (None, root')
  | inl ENOENT =>
      match rp with
      | [] => (Some (OSError ENOENT p), root)
      | _ :: rparent =>
          match mkdir_parents_rev root rparent with
          | (Some x, root1) => (Some x, root1)
          | (None, root1) => mkdir_exist_ok root1 p
          end
      end
  | inl e => if is_dir root p then (None, root) else (Some (OSError e p), root)
  end.

Definition mkdir_parents (root : node) (p : path) : option exn * node :=
  mkdir_parents_rev root (rev p).

(* ===================================================================== *)
(** ** The validator's state and its methods *)
(* ===================================================================== *)

(** The value [record_validation] stores under a component name. *)
Record ValidationRecord : Type := mkValidationRecord {
  status : string;
  message : string;
  timestamp : float
}.

(** The value [record_issue] appends. *)
Record Issue : Type := mkIssue {
  issue : string;
  severity : string;
  solution : string;
  issue_timestamp : float
}.

(** The fields of a [MetabaseBridgeValidator], the artifact tree it works
    on, and the clock. *)
Record Run : Type := mkRun {
  base_path : path;
  validation_results : gmap string ValidationRecord;
  repairs_applied : list string;
  issues_found : list Issue;
  fs : node;
  clock : nat → float;
  ticks : nat
}.

Definition set_validation_results (f : gmap string ValidationRecord →
    gmap string ValidationRecord) (s : Run) : Run :=
  mkRun (base_path s) (f (validation_results s)) (repairs_applied s)
        (issues_found s) (fs s) (clock s) (ticks s).

Definition set_repairs_applied (f : list string → list string) (s : Run) : Run :=
  mkRun (base_path s) (validation_results s) (f (repairs_applied s))
        (issues_found s) (fs s) (clock s) (ticks s).

Definition set_issues_found (f : list Issue → list Issue) (s : Run) : Run :=
  mkRun (base_path s) (validation_results s) (repairs_applied s)
        (f (issues_found s)) (fs s) (clock s) (ticks s).

Definition set_fs (root : node) (s : Run) : Run :=
  mkRun (base_path s) (validation_results s) (repairs_applied s)
        (issues_found s) root (clock s) (ticks s).

Definition set_ticks (n : nat) (s : Run) : Run :=
  mkRun (base_path s) (validation_results s) (repairs_applied s)
        (issues_found s) (fs s) (clock s) n.

(** [__init__]: empty bookkeeping over a given tree and clock. *)
Definition init (base : path) (root : node) (clk : nat → float) : Run :=
  mkRun base ∅ [] [] root clk 0.

(** How a call ends. *)
Inductive outcome (A : Type) : Type :=
  | Returned (a : A)
  | Raised (x : exn).
Arguments Returned {A} a.
Arguments Raised {A} x.

(** A method: it runs from a state and ends in a state. *)
Definition Py (A : Type) : Type := Run → outcome A * Run.

#[global] Instance Py_ret : MRet Py := λ A a s, (Returned a, s).
#[global] Instance Py_bind : MBind Py := λ A B k m s,
  match m s with
  | (Returned a, s') => k a s'
  | (Raised x, s') => (Raised x, s')
  end.

Definition get : Py Run := λ s, (Returned s, s).
Definition modify (f : Run → Run) : Py unit := λ s, (Returned tt, f s).
Definition raise {A : Type} (x : exn) : Py A := λ s, (Raised x, s).

(** [try: body  except Exception as e: handler(e)]. *)
Definition try_except {A : Type} (body : Py A) (handler : exn → Py A) : Py A :=
  λ s, match body s with
       | (Returned a, s') => (Returned a, s')
       | (Raised x, s') => handler x s'
       end.

(** [time.time()]. *)
Definition time_time : Py float :=
  λ s, (Returned (clock s (ticks s)), set_ticks (S (ticks s)) s).

(** [p.exists()]. *)
Definition path_exists (p : path) : Py bool :=
  s ← get; mret (exists_ (fs s) p).

(** [with open(p, 'r') as f: content = f.read()]. *)
Definition open_read (p : path) : Py string :=
  s ← get;
  match read_text (fs s) p with
  | inl x => raise x
  | inr content => mret content
  end.

(** [with open(p, 'w') as f: f.write(text)]. *)
Definition open_write (p : path) (text : string) : Py unit :=
  s ← get;
  match write_text (fs s) p text with
  | inl x => raise x
  | inr root' => modify (set_fs root')
  end.

(** [p.mkdir(parents=True, exist_ok=True)]. *)
Definition path_mkdir (p : path) : Py unit :=
  s ← get;
  match mkdir_parents (fs s) p with
  | (Some x, root') => modify (set_fs root');; raise x
  | (None, root') => modify (set_fs root')
  end.

Definition record_validation (component status message : string) : Py unit :=
  t ← time_time;
  modify (set_validation_results
            (λ m, <[component := mkValidationRecord status message t]> m)).

Definition record_issue (issue severity solution : string) : Py unit :=
  t ← time_time;
  modify (set_issues_found (λ l, l ++ [mkIssue issue severity solution t])).

(** The loop
    [for element in required: if element not in content: missing.append(element)]
    started from the list [missing]. *)
Fixpoint collect_missing (content : string) (required missing : list string)
    : list string :=
  match required with
  | [] => missing
  | element :: rest =>
      if negb (contains element content)
      then collect_missing content rest (missing ++ [element])
      else collect_missing content rest missing
  end.

Definition required_elements : list string :=
  ["name:"; "platforms:"; "dependencies:"; "targets:"].

Definition validate_swift_package_structure : Py unit :=
  s ← get;
  let package_file := base_path s ++ ["swift-package"; "Package.swift"] in
  ex ← path_exists package_file;
  if negb ex then
    record_issue "Package.swift missing" "CRITICAL" "Create Package.swift"
  else
    try_except
      (content ← open_read package_file;
       let missing_elements := collect_missing content required_elements [] in
       (match missing_elements with
        | _ :: _ =>
            record_issue
              ("Missing package elements: " +:+ py_repr_list missing_elements)
              "HIGH" "Add missing package elements"
        | [] =>
            record_validation "swift_package_structure" "PASSED"
              "Package structure is valid"
        end);;
       if contains "MetabaseBridge" content then
         record_validation "metabase_bridge_component" "PASSED"
           "MetabaseBridge component present"
       else
         record_issue "MetabaseBridge component missing" "HIGH"
           "Add MetabaseBridge component")
      (λ e,
         record_issue ("Package validation error: " +:+ exn_str e) "HIGH"
           "Fix Package.swift syntax").

(** The list [dockerfile_checks] that the four tests on the Dockerfile
    build, in order. *)
Definition dockerfile_checks (content : string) : list string :=
  [ if contains "FROM swift:5.9-focal as builder" content
    then "Multi-stage build configured" else "Multi-stage build missing";
    if contains "USER metabase" content
    then "Non-root user configured" else "Non-root user missing";
    if contains "HEALTHCHECK" content
    then "Health check configured" else "Health check missing";
    if contains "EXPOSE 3000" content
    then "Metabase port properly exposed" else "Metabase port exposure missing" ].

Definition validate_containerization : Py unit :=
  s ← get;
  let dockerfile := base_path s ++ ["containerization"; "Dockerfile.bridge"] in
  ex ← path_exists dockerfile;
  if negb ex then
    record_issue "Dockerfile.bridge missing" "CRITICAL"
      "Create containerization/Dockerfile.bridge"
  else
    content ← open_read dockerfile;
    if forallb (contains "configured") (dockerfile_checks content) then
      record_validation "containerization" "PASSED"
        "Containerization is properly configured"
    else
      record_issue "Containerization configuration issues" "HIGH"
        "Fix Dockerfile configuration".

Definition required_endpoints : list string :=
  ["/health"; "/api/v1/metrics"; "/api/v1/metabase/process"].

Definition validate_api_alignment : Py unit :=
  s ← get;
  let metabase_bridge_file :=
    base_path s ++
    ["swift-package"; "Sources"; "MetabaseBridge"; "MetabaseBridge.swift"] in
  ex ← path_exists metabase_bridge_file;
  if negb ex then
    record_issue "MetabaseBridge.swift missing" "HIGH"
      "Create MetabaseBridge implementation"
  else
    content ← open_read metabase_bridge_file;
    let missing_endpoints := collect_missing content required_endpoints [] in
    match missing_endpoints with
    | _ :: _ =>
        record_issue
          ("Missing API endpoints: " +:+ py_repr_list missing_endpoints)
          "MEDIUM" "Implement missing API endpoints"
    | [] =>
        record_validation "api_alignment" "PASSED"
          "All required API endpoints referenced"
    end.

(** The dict [required_components], in insertion order. *)
Definition required_components (base : path) : list (string * path) :=
  [ ("MetabaseBridge.swift",
     base ++ ["swift-package"; "Sources"; "MetabaseBridge"; "MetabaseBridge.swift"]);
    ("AppleEcosystemBridge.swift",
     base ++ ["swift-package"; "Sources"; "AppleEcosystemBridge";
              "AppleEcosystemBridge.swift"]);
    ("NodeJSBridge.swift",
     base ++ ["swift-package"; "Sources"; "NodeJSBridge"; "NodeJSBridge.swift"]) ].

(** The loop [for name, path in ...: if not path.exists(): missing.append(name)]. *)
Fixpoint collect_missing_components (root : node)
    (components : list (string * path)) (missing : list string) : list string :=
  match components with
  | [] => missing
  | (name, p) :: rest =>
      if negb (exists_ root p)
      then collect_missing_components root rest (missing ++ [name])
      else collect_missing_components root rest missing
  end.

Definition validate_integration_components : Py unit :=
  s ← get;
  let missing_components :=
    collect_missing_components (fs s) (required_components (base_path s)) [] in
  match missing_components with
  | _ :: _ =>
      record_issue ("Missing components: " +:+ py_repr_list missing_components)
        "CRITICAL" "Create missing component files"
  | [] =>
      record_validation "integration_components" "PASSED"
        "All integration components present"
  end.

(** *** Repairs *)

Definition required_dirs (base : path) : list path :=
  [ base ++ ["swift-package"; "Sources"];
    base ++ ["containerization"];
    base ++ ["integration"];
    base ++ ["tests"];
    base ++ ["optimization"];
    base ++ ["validation"] ].

(** The body of the loop of [repair_missing_directories] for one path. *)
Definition repair_directory (dir_path : path) : Py unit :=
  ex ← path_exists dir_path;
  if negb ex then
    path_mkdir dir_path;;
    modify (set_repairs_applied
              (λ l, l ++ ["Created directory: " +:+ path_str dir_path]))
  else mret tt.

Fixpoint repair_directories (dirs : list path) : Py unit :=
  match dirs with
  | [] => mret tt
  | dir_path :: rest => repair_directory dir_path;; repair_directories rest
  end.

Definition repair_missing_directories : Py unit :=
  s ← get; repair_directories (required_dirs (base_path s)).

Definition basic_compose : string :=
  "version: '3.8'" +:+ newline +:+
  "services:" +:+ newline +:+
  "  metabase-bridge:" +:+ newline +:+
  "    build: ." +:+ newline +:+
  "    ports:" +:+ newline +:+
  "      - " +:+ dquote +:+ "3000:3000" +:+ dquote +:+ newline +:+
  "    environment:" +:+ newline +:+
  "      - METABASE_BRIDGE_CONFIG=/app/config/bridge.json" +:+ newline +:+
  "      - METABASE_URL=http://localhost:3000" +:+ newline.

Definition repair_configuration_files : Py unit :=
  s ← get;
  let compose_file :=
    base_path s ++ ["containerization"; "docker-compose.bridge.yml"] in
  ex ← path_exists compose_file;
  if negb ex then
    open_write compose_file basic_compose;;
    modify (set_repairs_applied (λ l, l ++ ["Created docker-compose.bridge.yml"]))
  else mret tt.

Definition apply_automatic_repairs : Py unit :=
  repair_missing_directories;;
  repair_configuration_files.

(** *** Health *)

(** A Python [int] as the [float] that true division works on (exact below
    2^53, which no dict size reaches). *)
Definition float_of_nat (n : nat) : float :=
  PrimFloat.of_uint63 (Uint63.of_Z (Z.of_nat n)).

(** [(passed_validations / total_validations) * 100]. *)
Definition health_percentage (passed_validations total_validations : nat) : float :=
  PrimFloat.mul
    (PrimFloat.div (float_of_nat passed_validations) (float_of_nat total_validations))
    100%float.

(** [sum(1 for result in results.values() if result["status"] == "PASSED")]. *)
Definition passed_validations (results : gmap string ValidationRecord) : nat :=
  length (filter (λ result, status result = "PASSED") (map_to_list results).*2).

(** The chain of comparisons that ends [calculate_overall_health]. *)
Definition health_tier (health_percentage : float) : string :=
  if PrimFloat.leb 90%float health_percentage then "EXCELLENT"
  else if PrimFloat.leb 70%float health_percentage then "GOOD"
  else if PrimFloat.leb 50%float health_percentage then "FAIR"
  else "POOR".

Definition calculate_overall_health (results : gmap string ValidationRecord)
    : string :=
  let total_validations := size results in
  if Nat.eqb total_validations 0 then "UNKNOWN"
  else health_tier (health_percentage (passed_validations results) total_validations).

(** *** The run *)

Record Report : Type := mkReport {
  report_validation_results : gmap string ValidationRecord;
  report_repairs_applied : list string;
  report_issues_found : list Issue;
  overall_health : string
}.

(** The four [validate_*] calls of [run_validation_and_repair], in order. *)
Definition evaluate : Py unit :=
  validate_swift_package_structure;;
  validate_containerization;;
  validate_api_alignment;;
  validate_integration_components.

Definition run_validation_and_repair : Py Report :=
  evaluate;;
  apply_automatic_repairs;;
  s ← get;
  mret (mkReport (validation_results s) (repairs_applied s) (issues_found s)
          (calculate_overall_health (validation_results s))).

(* ===================================================================== *)
(** ** Vocabulary of the statements *)
(* ===================================================================== *)

(** *** Paths the methods build from [base_path] *)

Definition package_file (base : path) : path :=
  base ++ ["swift-package"; "Package.swift"].

Definition dockerfile (base : path) : path :=
  base ++ ["containerization"; "Dockerfile.bridge"].

Definition metabase_bridge_file (base : path) : path :=
  base ++ ["swift-package"; "Sources"; "MetabaseBridge"; "MetabaseBridge.swift"].

Definition compose_file (base : path) : path :=
  base ++ ["containerization"; "docker-compose.bridge.yml"].

(** *** The two rules of [validate_swift_package_structure] *)

(** Its first rule, on the text read. *)
Definition check_package_elements (content : string) : Py unit :=
  match collect_missing content required_elements [] with
  | _ :: _ =>
      record_issue
        ("Missing package elements: " +:+
         py_repr_list (collect_missing content required_elements []))
        "HIGH" "Add missing package elements"
  | [] =>
      record_validation "swift_package_structure" "PASSED"
        "Package structure is valid"
  end.

(** Its second rule. *)
Definition check_metabase_bridge (content : string) : Py unit :=
  if contains "MetabaseBridge" content then
    record_validation "metabase_bridge_component" "PASSED"
      "MetabaseBridge component present"
  else
    record_issue "MetabaseBridge component missing" "HIGH"
      "Add MetabaseBridge component".

(** *** What a call leaves alone, what a rule yields *)

(** Every call of [m] relates the state it starts from to the state it
    ends in, whether it returns or raises. *)
Definition preserves {A : Type} (R : Run → Run → Prop) (m : Py A) : Prop :=
  ∀ s, R s (m s).2.

(** Everything but the bookkeeping of validations and issues (and the
    number of clock readings) is the same in both states. *)
Definition same_artifacts (s s' : Run) : Prop :=
  fs s' = fs s ∧ base_path s' = base_path s ∧
  repairs_applied s' = repairs_applied s ∧ clock s' = clock s.

(** The leaf decision of a system call keeps what exists below an entry
    it replaces. *)
Definition leaf_keeps (leaf : bool → option node → errno + node) : Prop :=
  ∀ w c c' q, leaf w (Some c) = inr c' →
    exists_ c q = true → exists_ c' q = true.




(** *** The percentage in exact arithmetic *)

(** The percentage as a rational number, and the tier it falls in under
    inclusive lower bounds. *)
Definition exact_percentage (passed total : Z) : Q :=
  (inject_Z passed / inject_Z total * 100)%Q.

Definition exact_tier (passed total : Z) : string :=
  if Qle_bool 90 (exact_percentage passed total) then "EXCELLENT"
  else if Qle_bool 70 (exact_percentage passed total) then "GOOD"
  else if Qle_bool 50 (exact_percentage passed total) then "FAIR"
  else "POOR".

(** The tier the floating-point computation gives for the same counts
    ([float_of_nat] goes through the same conversion). *)
Definition float_tier (passed total : Z) : string :=
  health_tier
    (PrimFloat.mul
       (PrimFloat.div (PrimFloat.of_uint63 (Uint63.of_Z passed))
          (PrimFloat.of_uint63 (Uint63.of_Z total)))
       100%float).

(** The three comparisons of [health_tier] come out on the floating-point
    percentage as they do on the exact one (by cross-multiplication). *)
Definition thresholds_agree (passed total : Z) : bool :=
  let percentage :=
    PrimFloat.mul
      (PrimFloat.div (PrimFloat.of_uint63 (Uint63.of_Z passed))
         (PrimFloat.of_uint63 (Uint63.of_Z total)))
      100%float in
  let scaled := (100 * passed)%Z in
  Bool.eqb (PrimFloat.leb 90%float percentage) (90 * total <=? scaled)%Z &&
  Bool.eqb (PrimFloat.leb 70%float percentage) (70 * total <=? scaled)%Z &&
  Bool.eqb (PrimFloat.leb 50%float percentage) (50 * total <=? scaled)%Z.

(** [f] holds of [count] consecutive integers from [start]. *)
Fixpoint all_from (f : Z → bool) (start : Z) (count : nat) : bool :=
  match count with
  | 0 => true
  | S c => f start && all_from f (start + 1) c
  end.

(** They do for every [passed] from 0 to [total]. *)
Definition thresholds_agree_below (total : Z) : bool :=
  all_from (λ passed, thresholds_agree passed total) 0 (S (Z.to_nat total)).

(** *** Sample states *)

(** A mapping with [total] entries of which the first [passed] are PASSED. *)
Definition sample_results (passed total : nat) : gmap string ValidationRecord :=
  list_to_map
    ((λ i, (pretty i,
            mkValidationRecord (if Nat.ltb i passed then "PASSED" else "FAILED")
              "" 0%float)) <$> seq 0 total).

(** A clock that reads 0, 1, 2, ... *)
Definition sample_clock (n : nat) : float := float_of_nat n.

(** A writable directory with the given entries. *)
Definition dir (entries : list (string * node)) : node :=
  Dir true (list_to_map entries).

(** A root in which nothing has been created yet, not even the project
    directory. *)
Definition empty_project : Run :=
  init ["proj"] (dir []) sample_clock.

(** A project directory in which no entry may be created. *)
Definition readonly_project : Run :=
  init ["proj"] (dir [("proj", Dir false ∅)]) sample_clock.

(** A project directory with the given entries, under a fresh validator. *)
Definition project_with (entries : list (string * node)) : Run :=
  init ["proj"] (dir [("proj", dir entries)]) sample_clock.

(** [Dockerfile.bridge] is there, but may not be read. *)
Definition unreadable_dockerfile_project : Run :=
  project_with
    [("containerization", dir [("Dockerfile.bridge", File false true "HEALTHCHECK")])].



(** A Dockerfile that has all four lines the rule looks for. *)
Definition complete_dockerfile : string :=
  "FROM swift:5.9-focal as builder" +:+ newline +:+
  "USER metabase" +:+ newline +:+
  "HEALTHCHECK CMD true" +:+ newline +:+
  "EXPOSE 3000" +:+ newline.

Definition complete_dockerfile_project : Run :=
  project_with
    [("containerization",
      dir [("Dockerfile.bridge", File true true complete_dockerfile)])].

(** [Package.swift] is there, but may not be read. *)
Definition unreadable_package_project : Run :=
  project_with
    [("swift-package", dir [("Package.swift", File false true "name:")])].

(** [MetabaseBridge.swift] mentions one of the three endpoints. *)
Definition partial_bridge_project : Run :=
  project_with
    [("swift-package",
      dir [("Sources",
            dir [("MetabaseBridge",
                  dir [("MetabaseBridge.swift", File true true "/health")])])])].

(** [MetabaseBridge.swift] is there, but may not be read. *)
Definition unreadable_bridge_project : Run :=
  project_with
    [("swift-package",
      dir [("Sources",
            dir [("MetabaseBridge",
                  dir [("MetabaseBridge.swift", File false true "/health")])])])].

(** *** The rest of the file: [main] *)

(** The default of [__init__]'s [base_path]. *)
Definition default_base_path : path :=
  ["Users"; "lucia"; "Documents"; "GitHub"; "luci-metabase-mcp";
   "bridging-architecture"].

(** [main()]: a validator on the default path, one run, and the exit
    status computed from the report's health.  The tree and the clock are
    what the process finds. *)
Definition main (root : node) (clk : nat → float) : outcome Z * Run :=
  (report ← run_validation_and_repair;
   mret (if String.eqb (overall_health report) "EXCELLENT" ||
            String.eqb (overall_health report) "GOOD"
         then 0%Z else 1%Z))
    (init default_base_path root clk).

(** *** Bookkeeping across calls *)

(** The component names that [record_validation] is called with. *)
Definition component_names : list string :=
  ["swift_package_structure"; "metabase_bridge_component"; "containerization";
   "api_alignment"; "integration_components"].

(** From [s] to [s'] the bookkeeping only grew: issues and repairs were
    appended, no record was removed, and a record that is new or was
    overwritten has status PASSED under one of the component names. *)
Definition bookkeeping_grows (s s' : Run) : Prop :=
  base_path s' = base_path s ∧ clock s' = clock s ∧ ticks s ≤ ticks s' ∧
  issues_found s `prefix_of` issues_found s' ∧
  repairs_applied s `prefix_of` repairs_applied s' ∧
  (∀ k, is_Some (validation_results s !! k) →
        is_Some (validation_results s' !! k)) ∧
  (∀ k r, validation_results s' !! k = Some r →
          validation_results s !! k = Some r ∨
          (k ∈ component_names ∧ status r = "PASSED")).

(** The tree that holds [n] at path [p] and nothing else. *)
Definition nest (p : path) (n : node) : node :=
  foldr (λ x c, dir [(x, c)]) n p.

(** A [MetabaseBridge.swift] that mentions the three endpoints. *)
Definition complete_bridge : string :=
  "/health /api/v1/metrics /api/v1/metabase/process".

(** A project whose only file is that [MetabaseBridge.swift]. *)
Definition bridge_only (base : path) : node :=
  nest (base ++ ["swift-package"; "Sources"; "MetabaseBridge"])
    (dir [("MetabaseBridge.swift", File true true complete_bridge)]).

(** The report of a run that returned (an empty one stands for a raise). *)
Definition report_of (o : outcome Report) : Report :=
  match o with
  | Returned report => report
  | Raised _ => mkReport ∅ [] [] ""
  end.

(** A fresh validator on the default path over a tree. *)
Definition default_run (root : node) : Run :=
  init default_base_path root sample_clock.

(** *** What the evaluator looks at *)

(** The files whose existence or text the [validate_*] methods test. *)
Definition observed_files (base : path) : list path :=
  [package_file base; dockerfile base; metabase_bridge_file base] ++
  (snd <$> required_components base).

(** Two states on which the evaluator decides alike: the same
    bookkeeping and clock, and trees that agree on the observed files. *)
Definition same_verdict_inputs (s t : Run) : Prop :=
  base_path t = base_path s ∧
  validation_results t = validation_results s ∧
  issues_found t = issues_found s ∧
  clock t = clock s ∧ ticks t = ticks s ∧
  ∀ q, q ∈ observed_files (base_path s) → stat (fs t) q = stat (fs s) q.

(** The Repair Engine's share of the state is all that changed. *)
Definition only_repaired (s s' : Run) : Prop :=
  base_path s' = base_path s ∧
  validation_results s' = validation_results s ∧
  issues_found s' = issues_found s ∧
  clock s' = clock s ∧ ticks s' = ticks s.

(** What an Issue says, its timestamp apart. *)
Definition issue_text (i : Issue) : string * string * string :=
  (issue i, severity i, solution i).

(** [s] and [t] are where two evaluations stand that started from [a] and
    from [b]: they see the same observed files, have appended issues that
    say the same, and [t] has stored no component that [b] did not have
    or [s] has not stored. *)
Definition evaluated_alike (a b s t : Run) : Prop :=
  base_path t = base_path s ∧
  (∀ q, q ∈ observed_files (base_path s) → stat (fs t) q = stat (fs s) q) ∧
  (∃ l l', issues_found s = issues_found a ++ l ∧
           issues_found t = issues_found b ++ l' ∧
           issue_text <$> l' = issue_text <$> l) ∧
  (∀ k, is_Some (validation_results t !! k) →
        is_Some (validation_results b !! k) ∨
        is_Some (validation_results s !! k)).




(* ===================================================================== *)
(** * Properties *)
(* ===================================================================== *)

(** ** The artifact tree *)

Lemma stat_snoc (n : node) (q : path) (x : string) :
  stat n (q ++ [x]) =
  match stat n q with
  | inl e => inl e
  | inr (File _ _ _) => inl ENOTDIR
  | inr (Dir _ es) =>
      match es !! x with None => inl ENOENT | Some c => inr c end
  end.
Proof.
  revert n. induction q as [|y q IH]; intros n; simpl.
  - destruct n as [r w c|w es]; [done|]. by destruct (es !! x).
  - destruct n as [r w c|w es]; [done|]. destruct (es !! y); [apply IH|done].
Qed.

Lemma mkdir_leaf_keeps : leaf_keeps mkdir_leaf.
Proof. intros w c c' q H. discriminate. Qed.

Lemma write_leaf_keeps (text : string) : leaf_keeps (write_leaf text).
Proof.
  intros w c c' q H. destruct c as [r fw old|dw es]; simpl in H; [|done].
  destruct fw; [|done]. injection H as <-.
  destruct q; [done|]. done.
Qed.

Lemma update_entry_exists (root_err : errno) leaf (p : path) :
  ∀ n n', update_entry root_err leaf n p = inr n' → exists_ n' p = true.
Proof.
  unfold exists_.
  induction p as [|x p IH]; intros n n' H; simpl in H; [done|].
  destruct n as [r w c|w es]; [done|].
  destruct p as [|y p].
  - destruct (leaf w (es !! x)) as [e|c]; [done|]. injection H as <-.
    simpl. by rewrite lookup_insert_eq.
  - destruct (es !! x) as [c|] eqn:Hx; [|done].
    destruct (update_entry root_err leaf c (y :: p)) as [e|c'] eqn:Hc; [done|].
    injection H as <-. specialize (IH _ _ Hc).
    change (stat (Dir w (<[x:=c']> es)) (x :: y :: p))
      with (match <[x:=c']> es !! x with None => inl ENOENT | Some d => stat d (y :: p) end).
    by rewrite lookup_insert_eq.
Qed.

Lemma update_entry_mono (root_err : errno) leaf (p : path) :
  leaf_keeps leaf →
  ∀ n n' q, update_entry root_err leaf n p = inr n' →
    exists_ n q = true → exists_ n' q = true.
Proof.
  intros Hleaf.
  induction p as [|x p IH]; intros n n' q H Hq; simpl in H; [done|].
  destruct n as [r w c|w es]; [done|].
  destruct q as [|z q]; [done|].
  unfold exists_ in Hq |- *. simpl in Hq.
  destruct p as [|y p].
  - destruct (leaf w (es !! x)) as [e|c] eqn:Hl; [done|]. injection H as <-.
    simpl. destruct (decide (x = z)) as [->|Hne].
    + rewrite lookup_insert_eq. destruct (es !! z) as [d|]; [|done].
      apply (Hleaf _ _ _ q Hl Hq).
    + by rewrite lookup_insert_ne.
  - destruct (es !! x) as [c|] eqn:Hx; [|done].
    destruct (update_entry root_err leaf c (y :: p)) as [e|c'] eqn:Hc; [done|].
    injection H as <-. simpl.
    destruct (decide (x = z)) as [->|Hne].
    + rewrite lookup_insert_eq. rewrite Hx in Hq. apply (IH _ _ _ Hc Hq).
    + by rewrite lookup_insert_ne.
Qed.

Lemma update_entry_snoc (root_err : errno) leaf (q : path) (x : string) :
  ∀ n w es, stat n q = inr (Dir w es) →
    match leaf w (es !! x) with
    | inl e => update_entry root_err leaf n (q ++ [x]) = inl e
    | inr _ => ∃ n', update_entry root_err leaf n (q ++ [x]) = inr n'
    end.
Proof.
  induction q as [|y q IH]; intros n w es H; simpl in H.
  - injection H as ->. simpl. destruct (leaf w (es !! x)); eauto.
  - destruct n as [r fw c|dw des]; [done|].
    destruct (des !! y) as [c|] eqn:Hy; [|done].
    specialize (IH _ _ _ H).
    change ((y :: q) ++ [x]) with (y :: (q ++ [x])).
    assert (Hne : ∃ z l, q ++ [x] = z :: l).
    { destruct q; simpl; eauto. }
    destruct Hne as (z & l & Hzl).
    simpl. rewrite Hzl, Hy. rewrite <- Hzl.
    destruct (leaf w (es !! x)).
    + by rewrite IH.
    + destruct IH as [n' ->]. eauto.
Qed.

(** [os.mkdir] answers ENOENT only when the parent does not resolve. *)
Lemma os_mkdir_enoent (q : path) (x : string) :
  ∀ n, os_mkdir n (q ++ [x]) = inl ENOENT → stat n q = inl ENOENT.
Proof.
  unfold os_mkdir.
  induction q as [|y q IH]; intros n H.
  - simpl in H. destruct n as [r w c|w es]; [done|].
    destruct (es !! x); simpl in H; [done|]. by destruct w.
  - change ((y :: q) ++ [x]) with (y :: (q ++ [x])) in H.
    assert (Hne : ∃ z l, q ++ [x] = z :: l).
    { destruct q; simpl; eauto. }
    destruct Hne as (z & l & Hzl).
    simpl in H. rewrite Hzl in H. rewrite <- Hzl in H.
    destruct n as [r w c|w es]; [done|]. simpl.
    destruct (es !! y) as [c|]; [|done].
    destruct (update_entry EEXIST mkdir_leaf c (q ++ [x])) as [e|c'] eqn:Hc;
      [|done].
    injection H as ->. by apply IH.
Qed.

Lemma os_mkdir_root (n : node) : os_mkdir n [] = inl EEXIST.
Proof. done. Qed.

(** A directory that [os.mkdir] made is empty and writable. *)
Lemma os_mkdir_stat (p : path) :
  ∀ n n', os_mkdir n p = inr n' → stat n' p = inr (Dir true ∅).
Proof.
  unfold os_mkdir.
  induction p as [|x p IH]; intros n n' H; simpl in H; [done|].
  destruct n as [r w c|w es]; [done|].
  destruct p as [|y p].
  - destruct (es !! x); simpl in H; [done|]. destruct w; [|done].
    injection H as <-. simpl. by rewrite lookup_insert_eq.
  - destruct (es !! x) as [c|] eqn:Hx; [|done].
    destruct (update_entry EEXIST mkdir_leaf c (y :: p)) as [e|c'] eqn:Hc; [done|].
    injection H as <-. specialize (IH _ _ Hc).
    change (stat (Dir w (<[x:=c']> es)) (x :: y :: p))
      with (match <[x:=c']> es !! x with None => inl ENOENT | Some d => stat d (y :: p) end).
    by rewrite lookup_insert_eq.
Qed.

Lemma os_mkdir_exists (p : path) (n n' : node) :
  os_mkdir n p = inr n' → exists_ n' p = true.
Proof. apply update_entry_exists. Qed.

Lemma os_mkdir_mono (p q : path) (n n' : node) :
  os_mkdir n p = inr n' → exists_ n q = true → exists_ n' q = true.
Proof. apply update_entry_mono, mkdir_leaf_keeps. Qed.

Lemma is_dir_exists (n : node) (p : path) : is_dir n p = true → exists_ n p = true.
Proof. unfold is_dir, exists_. by destruct (stat n p) as [|[]]. Qed.

Lemma mkdir_exist_ok_cases (n : node) (p : path) :
  (∃ n', os_mkdir n p = inr n' ∧ mkdir_exist_ok n p = (None, n')) ∨
  (is_dir n p = true ∧ mkdir_exist_ok n p = (None, n)) ∨
  (∃ x, mkdir_exist_ok n p = (Some x, n)).
Proof.
  unfold mkdir_exist_ok. destruct (os_mkdir n p) as [e|n']; [|eauto].
  destruct (is_dir n p); destruct e; eauto.
Qed.

(** Making a directory under a parent that is missing: once the parents
    are made, the directory is new, empty and writable. *)
Lemma mkdir_parents_rev_fresh (rp : list string) :
  ∀ root root', mkdir_parents_rev root rp = (None, root') →
    stat root (rev rp) = inl ENOENT →
    stat root' (rev rp) = inr (Dir true ∅).
Proof.
  induction rp as [|y rp IH]; intros root root' H Hs; [done|].
  simpl in H. simpl in Hs.
  destruct (os_mkdir root (rev rp ++ [y])) as [e|n1] eqn:Hm.
  - assert (Hd : is_dir root (rev rp ++ [y]) = false).
    { unfold is_dir. by rewrite Hs. }
    rewrite Hd in H.
    destruct e; try done.
    apply os_mkdir_enoent in Hm.
    destruct (mkdir_parents_rev root rp) as [[x|] root1] eqn:Hr; [done|].
    specialize (IH _ _ Hr Hm).
    pose proof (update_entry_snoc EEXIST mkdir_leaf (rev rp) y _ _ _ IH) as Hu.
    simpl in Hu. rewrite lookup_empty in Hu. simpl in Hu.
    destruct Hu as [n' Hn'].
    unfold mkdir_exist_ok, os_mkdir in H. rewrite Hn' in H.
    injection H as <-. exact (os_mkdir_stat _ _ _ Hn').
  - injection H as <-. exact (os_mkdir_stat _ _ _ Hm).
Qed.

(** A [mkdir] that raises leaves the tree as it found it. *)
Lemma mkdir_parents_rev_failure (rp : list string) :
  ∀ root root' x, mkdir_parents_rev root rp = (Some x, root') → root' = root.
Proof.
  induction rp as [|y rp IH]; intros root root' x H.
  - simpl in H. destruct (is_dir root []); [done|]. by injection H.
  - simpl in H.
    destruct (os_mkdir root (rev rp ++ [y])) as [e|n1] eqn:Hm; [|done].
    assert (Hother : (if is_dir root (rev rp ++ [y]) then (None, root)
                      else (Some (OSError e (rev rp ++ [y])), root))
                     = (Some x, root') → root' = root).
    { destruct (is_dir root (rev rp ++ [y])); [done|]. by intros [= _ <-]. }
    destruct e; try (by apply Hother).
    apply os_mkdir_enoent in Hm.
    destruct (mkdir_parents_rev root rp) as [[x1|] root1] eqn:Hr.
    + injection H as _ <-. by eapply IH.
    + pose proof (mkdir_parents_rev_fresh _ _ _ Hr Hm) as Hf.
      pose proof (update_entry_snoc EEXIST mkdir_leaf (rev rp) y _ _ _ Hf) as Hu.
      simpl in Hu. rewrite lookup_empty in Hu. simpl in Hu.
      destruct Hu as [n' Hn'].
      unfold mkdir_exist_ok, os_mkdir in H. by rewrite Hn' in H.
Qed.

Lemma mkdir_exist_ok_mono (n n' : node) (p q : path) (o : option exn) :
  mkdir_exist_ok n p = (o, n') → exists_ n q = true → exists_ n' q = true.
Proof.
  intros H Hq.
  destruct (mkdir_exist_ok_cases n p) as [(n1 & Hm & E)|[[_ E]|[x E]]];
    rewrite E in H; injection H as _ <-; [|done..].
  by eapply os_mkdir_mono.
Qed.

Lemma mkdir_parents_rev_mono (rp : list string) (q : path) :
  ∀ root root' o, mkdir_parents_rev root rp = (o, root') →
    exists_ root q = true → exists_ root' q = true.
Proof.
  induction rp as [|y rp IH]; intros root root' o H Hq.
  - simpl in H. destruct (is_dir root []); by injection H as _ <-.
  - simpl in H.
    destruct (os_mkdir root (rev rp ++ [y])) as [e|n1] eqn:Hm.
    + assert (Hother : (if is_dir root (rev rp ++ [y]) then (None, root)
                        else (Some (OSError e (rev rp ++ [y])), root))
                       = (o, root') → exists_ root' q = true).
      { destruct (is_dir root (rev rp ++ [y])); by intros [= _ <-]. }
      destruct e; try (by apply Hother).
      destruct (mkdir_parents_rev root rp) as [[x1|] root1] eqn:Hr.
      * injection H as _ <-. by eapply IH.
      * eapply mkdir_exist_ok_mono; [exact H|]. by eapply IH.
    + injection H as _ <-. by eapply os_mkdir_mono.
Qed.

Lemma mkdir_parents_rev_exists (rp : list string) :
  ∀ root root', mkdir_parents_rev root rp = (None, root') →
    exists_ root' (rev rp) = true.
Proof.
  destruct rp as [|y rp]; intros root root' H; [done|].
  simpl in H. simpl.
  destruct (os_mkdir root (rev rp ++ [y])) as [e|n1] eqn:Hm.
  - assert (Hother : (if is_dir root (rev rp ++ [y]) then (None, root)
                      else (Some (OSError e (rev rp ++ [y])), root))
                     = (None, root') → exists_ root' (rev rp ++ [y]) = true).
    { destruct (is_dir root (rev rp ++ [y])) eqn:Hd; [|done].
      intros [= <-]. by apply is_dir_exists. }
    destruct e; try (by apply Hother).
    destruct (mkdir_parents_rev root rp) as [[x1|] root1] eqn:Hr; [done|].
    destruct (mkdir_exist_ok_cases root1 (rev rp ++ [y]))
      as [(n1 & Hm1 & E)|[[Hd E]|[x E]]]; rewrite E in H; [| |done].
    + injection H as <-. by eapply os_mkdir_exists.
    + injection H as <-. by apply is_dir_exists.
  - injection H as <-. by eapply os_mkdir_exists.
Qed.

Lemma mkdir_parents_failure (root root' : node) (p : path) (x : exn) :
  mkdir_parents root p = (Some x, root') → root' = root.
Proof. apply mkdir_parents_rev_failure. Qed.

Lemma mkdir_parents_mono (root root' : node) (p q : path) (o : option exn) :
  mkdir_parents root p = (o, root') →
  exists_ root q = true → exists_ root' q = true.
Proof. apply mkdir_parents_rev_mono. Qed.

Lemma mkdir_parents_exists (root root' : node) (p : path) :
  mkdir_parents root p = (None, root') → exists_ root' p = true.
Proof.
  intros H. apply mkdir_parents_rev_exists in H. by rewrite rev_involutive in H.
Qed.

Lemma write_text_exists (root root' : node) (p : path) (text : string) :
  write_text root p text = inr root' → exists_ root' p = true.
Proof.
  unfold write_text.
  destruct (update_entry EISDIR (write_leaf text) root p) eqn:H; [done|].
  intros [= <-]. by eapply update_entry_exists.
Qed.

Lemma write_text_mono (root root' : node) (p q : path) (text : string) :
  write_text root p text = inr root' →
  exists_ root q = true → exists_ root' q = true.
Proof.
  unfold write_text.
  destruct (update_entry EISDIR (write_leaf text) root p) eqn:H; [done|].
  intros [= <-]. eapply update_entry_mono; [apply write_leaf_keeps|done].
Qed.

(** ** Running methods *)

Lemma bind_run {A B : Type} (m : Py A) (k : A → Py B) (s : Run) :
  (m ≫= k) s =
  match m s with
  | (Returned a, s') => k a s'
  | (Raised x, s') => (Raised x, s')
  end.
Proof. reflexivity. Qed.

(** Unfold the plumbing of a method down to matches on the state. *)
Ltac py_run :=
  cbv beta iota zeta delta
    [mbind Py_bind mret Py_ret get modify raise try_except path_exists
     open_read open_write path_mkdir time_time record_issue record_validation].

Lemma set_fs_same (s : Run) : set_fs (fs s) s = s.
Proof. by destruct s. Qed.

Lemma record_issue_run (i sev sol : string) (s : Run) :
  record_issue i sev sol s =
  (Returned tt,
   set_issues_found (λ l, l ++ [mkIssue i sev sol (clock s (ticks s))])
     (set_ticks (S (ticks s)) s)).
Proof. reflexivity. Qed.

Lemma record_validation_run (c st msg : string) (s : Run) :
  record_validation c st msg s =
  (Returned tt,
   set_validation_results
     (λ m, <[c := mkValidationRecord st msg (clock s (ticks s))]> m)
     (set_ticks (S (ticks s)) s)).
Proof. reflexivity. Qed.

Lemma repair_directory_run (d : path) (s : Run) :
  repair_directory d s =
  if exists_ (fs s) d then (Returned tt, s)
  else match mkdir_parents (fs s) d with
       | (Some x, root') => (Raised x, set_fs root' s)
       | (None, root') =>
           (Returned tt,
            set_repairs_applied
              (λ l, l ++ ["Created directory: " +:+ path_str d])
              (set_fs root' s))
       end.
Proof.
  unfold repair_directory. py_run.
  destruct (exists_ (fs s) d); simpl; [done|].
  by destruct (mkdir_parents (fs s) d) as [[x|] root'].
Qed.

Lemma repair_configuration_files_run (s : Run) :
  repair_configuration_files s =
  if exists_ (fs s) (compose_file (base_path s)) then (Returned tt, s)
  else match write_text (fs s) (compose_file (base_path s)) basic_compose with
       | inl x => (Raised x, s)
       | inr root' =>
           (Returned tt,
            set_repairs_applied (λ l, l ++ ["Created docker-compose.bridge.yml"])
              (set_fs root' s))
       end.
Proof.
  unfold repair_configuration_files, compose_file. py_run.
  destruct (exists_ (fs s) _); simpl; [done|].
  by destruct (write_text (fs s) _ basic_compose) as [x|root'].
Qed.

(** What one pass over a directory can do to the state. *)
Lemma repair_directory_cases (d : path) (s : Run) :
  (exists_ (fs s) d = true ∧ repair_directory d s = (Returned tt, s)) ∨
  (∃ x, exists_ (fs s) d = false ∧ mkdir_parents (fs s) d = (Some x, fs s) ∧
        repair_directory d s = (Raised x, s)) ∨
  (∃ root', exists_ (fs s) d = false ∧ mkdir_parents (fs s) d = (None, root') ∧
        repair_directory d s =
        (Returned tt,
         set_repairs_applied (λ l, l ++ ["Created directory: " +:+ path_str d])
           (set_fs root' s))).
Proof.
  rewrite repair_directory_run.
  destruct (exists_ (fs s) d); [by left|right].
  destruct (mkdir_parents (fs s) d) as [[x|] root'] eqn:Hm.
  - left. exists x. pose proof (mkdir_parents_failure _ _ _ _ Hm) as ->.
    by rewrite set_fs_same.
  - right. by exists root'.
Qed.

Lemma repair_directory_mono (d q : path) (s s' : Run) (o : outcome unit) :
  repair_directory d s = (o, s') →
  base_path s' = base_path s ∧
  (exists_ (fs s) q = true → exists_ (fs s') q = true).
Proof.
  intros H.
  destruct (repair_directory_cases d s)
    as [[_ E]|[(x & _ & _ & E)|(root' & _ & Hm & E)]];
    rewrite E in H; injection H as _ <-; [done..|].
  split; [done|]. simpl. by eapply mkdir_parents_mono.
Qed.

Lemma repair_directories_mono (ds : list path) (q : path) :
  ∀ s s' o, repair_directories ds s = (o, s') →
    base_path s' = base_path s ∧
    (exists_ (fs s) q = true → exists_ (fs s') q = true).
Proof.
  induction ds as [|d ds IH]; intros s s' o H.
  - by injection H as _ <-.
  - simpl in H. rewrite bind_run in H.
    destruct (repair_directory d s) as [[[]|x] s1] eqn:Hd.
    + destruct (repair_directory_mono d q _ _ _ Hd) as [Hb Hq].
      destruct (IH _ _ _ H) as [Hb' Hq']. split; [congruence|auto].
    + injection H as _ <-. by eapply repair_directory_mono.
Qed.

(** After a pass that returned, every directory of the list exists. *)
Lemma repair_directories_all (ds : list path) :
  ∀ s s', repair_directories ds s = (Returned tt, s') →
    ∀ d, d ∈ ds → exists_ (fs s') d = true.
Proof.
  induction ds as [|d ds IH]; intros s s' H d' Hin.
  - by apply elem_of_nil in Hin.
  - simpl in H. rewrite bind_run in H.
    destruct (repair_directory d s) as [[[]|x] s1] eqn:Hd; [|done].
    apply elem_of_cons in Hin as [->|Hin]; [|by eapply IH].
    apply (repair_directories_mono ds d _ _ _ H).
    destruct (repair_directory_cases d s)
      as [[Hex E]|[(x & _ & _ & E)|(root' & _ & Hm & E)]];
      rewrite E in Hd; [| done |]; injection Hd as <-; [done|].
    simpl. by eapply mkdir_parents_exists.
Qed.

(** A pass over directories that all exist does nothing. *)
Lemma repair_directories_noop (ds : list path) (s : Run) :
  (∀ d, d ∈ ds → exists_ (fs s) d = true) →
  repair_directories ds s = (Returned tt, s).
Proof.
  induction ds as [|d ds IH]; intros H; [done|].
  simpl. rewrite bind_run, repair_directory_run.
  rewrite (H d) by (apply elem_of_cons; by left).
  apply IH. intros d' Hd'. apply H. apply elem_of_cons. by right.
Qed.

(** Running the pass again from the state it left gives the same outcome
    and leaves that state alone. *)
Lemma repair_directories_again (ds : list path) :
  ∀ s s' o, repair_directories ds s = (o, s') →
    repair_directories ds s' = (o, s').
Proof.
  induction ds as [|d ds IH]; intros s s' o H.
  - by injection H as <- <-.
  - simpl in H. rewrite bind_run in H. simpl. rewrite bind_run.
    destruct (repair_directory_cases d s)
      as [[Hex E]|[(x & Hex & Hm & E)|(root' & Hex & Hm & E)]];
      rewrite E in H.
    + rewrite repair_directory_run.
      rewrite (proj2 (repair_directories_mono ds d _ _ _ H) Hex).
      by eapply IH.
    + injection H as <- <-. by rewrite E.
    + rewrite repair_directory_run.
      rewrite (proj2 (repair_directories_mono ds d _ _ _ H)
                 (mkdir_parents_exists _ _ _ Hm)).
      by eapply IH.
Qed.

Lemma apply_automatic_repairs_run (s : Run) :
  apply_automatic_repairs s =
  match repair_directories (required_dirs (base_path s)) s with
  | (Returned _, s1) => repair_configuration_files s1
  | (Raised x, s1) => (Raised x, s1)
  end.
Proof.
  unfold apply_automatic_repairs, repair_missing_directories. py_run.
  by destruct (repair_directories _ s) as [[[]|x] s1].
Qed.

Lemma apply_automatic_repairs_again (s s' : Run) (o : outcome unit) :
  apply_automatic_repairs s = (o, s') →
  apply_automatic_repairs s' = (o, s').
Proof.
  rewrite !apply_automatic_repairs_run. intros H.
  destruct (repair_directories (required_dirs (base_path s)) s)
    as [[[]|x] s1] eqn:Hd.
  - pose proof (repair_directories_all _ _ _ Hd) as Hall.
    destruct (repair_directories_mono _ [] _ _ _ Hd) as [Hb _].
    rewrite repair_configuration_files_run in H.
    assert (Hnoop : ∀ s2, base_path s2 = base_path s1 →
              (∀ q, exists_ (fs s1) q = true → exists_ (fs s2) q = true) →
              repair_directories (required_dirs (base_path s2)) s2
              = (Returned tt, s2)).
    { intros s2 Hb2 Hmono. apply repair_directories_noop.
      intros d Hin. apply Hmono, Hall. by rewrite <- Hb, <- Hb2. }
    destruct (exists_ (fs s1) (compose_file (base_path s1))) eqn:Hex.
    + injection H as <- <-. rewrite Hnoop by done.
      by rewrite repair_configuration_files_run, Hex.
    + destruct (write_text (fs s1) _ basic_compose) as [x|root'] eqn:Hw.
      * injection H as <- <-. rewrite Hnoop by done.
        by rewrite repair_configuration_files_run, Hex, Hw.
      * injection H as <- <-. rewrite Hnoop.
        -- rewrite repair_configuration_files_run. simpl.
           by rewrite (write_text_exists _ _ _ _ Hw).
        -- done.
        -- intros q. simpl. by eapply write_text_mono.
  - injection H as <- <-.
    destruct (repair_directories_mono _ [] _ _ _ Hd) as [Hb _].
    rewrite Hb. by rewrite (repair_directories_again _ _ _ _ Hd).
Qed.

(** C2.  Running the Repair Engine a second time, from the state the first
    run left and with nothing changed in between, leaves the artifact
    tree as the first run left it and appends nothing to the Repair
    sequence; the second run ends the way the first one did (so it
    returns whenever the first one returned). *)
Theorem repair_idempotent (s : Run) :
  let first := apply_automatic_repairs s in
  let second := apply_automatic_repairs first.2 in
  fs second.2 = fs first.2 ∧
  repairs_applied second.2 = repairs_applied first.2 ∧
  second = first.
Proof.
  simpl. destruct (apply_automatic_repairs s) as [o s'] eqn:H.
  apply apply_automatic_repairs_again in H. simpl. by rewrite H.
Qed.

(** ** What a method leaves alone *)

Section Frame.
Variable R : Run → Run → Prop.
Hypothesis R_refl : ∀ s, R s s.
Hypothesis R_trans : ∀ s1 s2 s3, R s1 s2 → R s2 s3 → R s1 s3.
Hypothesis R_ticks : ∀ s n, R s (set_ticks n s).
Hypothesis R_issues : ∀ s f, R s (set_issues_found f s).
Hypothesis R_results : ∀ s f, R s (set_validation_results f s).

Lemma preserves_ret {A : Type} (a : A) : preserves R (mret a).
Proof. intros s. apply R_refl. Qed.

Lemma preserves_get : preserves R get.
Proof. intros s. apply R_refl. Qed.

Lemma preserves_raise {A : Type} (x : exn) : preserves R (raise (A:=A) x).
Proof. intros s. apply R_refl. Qed.

Lemma preserves_bind {A B : Type} (m : Py A) (k : A → Py B) :
  preserves R m → (∀ a, preserves R (k a)) → preserves R (m ≫= k).
Proof.
  intros Hm Hk s. rewrite bind_run. specialize (Hm s).
  destruct (m s) as [[a|x] s1]; simpl in *; [|done].
  eapply R_trans; [exact Hm|apply Hk].
Qed.

Lemma preserves_try_except {A : Type} (body : Py A) (handler : exn → Py A) :
  preserves R body → (∀ x, preserves R (handler x)) →
  preserves R (try_except body handler).
Proof.
  intros Hb Hh s. unfold try_except. specialize (Hb s).
  destruct (body s) as [[a|x] s1]; simpl in *; [done|].
  eapply R_trans; [exact Hb|apply Hh].
Qed.

Lemma preserves_path_exists (p : path) : preserves R (path_exists p).
Proof. intros s. apply R_refl. Qed.

Lemma preserves_open_read (p : path) : preserves R (open_read p).
Proof.
  intros s. unfold open_read. py_run.
  destruct (read_text (fs s) p); apply R_refl.
Qed.

Lemma preserves_record_issue (i sev sol : string) :
  preserves R (record_issue i sev sol).
Proof.
  intros s. rewrite record_issue_run. simpl.
  eapply R_trans; [apply R_ticks|apply R_issues].
Qed.

Lemma preserves_record_validation (c st msg : string) :
  preserves R (record_validation c st msg).
Proof.
  intros s. rewrite record_validation_run. simpl.
  eapply R_trans; [apply R_ticks|apply R_results].
Qed.

Ltac frame :=
  repeat first
    [ apply preserves_record_issue
    | apply preserves_record_validation
    | apply preserves_path_exists
    | apply preserves_open_read
    | apply preserves_get
    | apply preserves_ret
    | apply preserves_try_except; [|intros ?]
    | apply preserves_bind; [|intros ?]
    | match goal with
      | |- preserves _ (if ?b then _ else _) => destruct b
      | |- preserves _ (match ?l with [] => _ | _ :: _ => _ end) => destruct l
      end ].

Lemma preserves_validate_swift_package_structure :
  preserves R validate_swift_package_structure.
Proof. unfold validate_swift_package_structure. frame. Qed.

Lemma preserves_validate_containerization :
  preserves R validate_containerization.
Proof. unfold validate_containerization. frame. Qed.

Lemma preserves_validate_api_alignment :
  preserves R validate_api_alignment.
Proof. unfold validate_api_alignment. frame. Qed.

Lemma preserves_validate_integration_components :
  preserves R validate_integration_components.
Proof. unfold validate_integration_components. frame. Qed.

Lemma preserves_evaluate : preserves R evaluate.
Proof.
  unfold evaluate.
  apply preserves_bind; [apply preserves_validate_swift_package_structure|].
  intros _.
  apply preserves_bind; [apply preserves_validate_containerization|].
  intros _.
  apply preserves_bind; [apply preserves_validate_api_alignment|].
  intros _. apply preserves_validate_integration_components.
Qed.
End Frame.

Lemma same_artifacts_refl (s : Run) : same_artifacts s s.
Proof. done. Qed.

Lemma same_artifacts_trans (s1 s2 s3 : Run) :
  same_artifacts s1 s2 → same_artifacts s2 s3 → same_artifacts s1 s3.
Proof. unfold same_artifacts. intros (-> & -> & -> & ->). done. Qed.

Lemma run_validation_and_repair_run (s : Run) :
  run_validation_and_repair s =
  match evaluate s with
  | (Returned _, s1) =>
      match apply_automatic_repairs s1 with
      | (Returned _, s2) =>
          (Returned (mkReport (validation_results s2) (repairs_applied s2)
                       (issues_found s2)
                       (calculate_overall_health (validation_results s2))), s2)
      | (Raised x, s2) => (Raised x, s2)
      end
  | (Raised x, s1) => (Raised x, s1)
  end.
Proof.
  unfold run_validation_and_repair. py_run.
  destruct (evaluate s) as [[[]|x] s1]; [|done].
  by destruct (apply_automatic_repairs s1) as [[[]|x] s2].
Qed.

(** C9.  No [validate_*] method, and so not the evaluation phase as a
    whole, changes the artifact tree, whether it returns or raises; the
    state a run ends in is the one [apply_automatic_repairs] left, and
    that method does change the tree (here it creates the project
    directory of an empty root). *)
Theorem evaluation_is_read_only (s : Run) :
  fs (validate_swift_package_structure s).2 = fs s ∧
  fs (validate_containerization s).2 = fs s ∧
  fs (validate_api_alignment s).2 = fs s ∧
  fs (validate_integration_components s).2 = fs s ∧
  fs (evaluate s).2 = fs s ∧
  (run_validation_and_repair s).2 =
    match evaluate s with
    | (Returned _, s1) => (apply_automatic_repairs s1).2
    | (Raised _, s1) => s1
    end ∧
  exists_ (fs empty_project) ["proj"; "tests"] = false ∧
  exists_ (fs (apply_automatic_repairs empty_project).2) ["proj"; "tests"] = true.
Proof.
  assert (H : ∀ m : Py unit, preserves same_artifacts m → fs (m s).2 = fs s).
  { intros m Hm. apply (Hm s). }
  split_and!.
  - apply H, preserves_validate_swift_package_structure;
      first [exact same_artifacts_trans | done].
  - apply H, preserves_validate_containerization;
      first [exact same_artifacts_trans | done].
  - apply H, preserves_validate_api_alignment;
      first [exact same_artifacts_trans | done].
  - apply H, preserves_validate_integration_components;
      first [exact same_artifacts_trans | done].
  - apply H, preserves_evaluate;
      first [exact same_artifacts_trans | done].
  - rewrite run_validation_and_repair_run.
    destruct (evaluate s) as [[[]|x] s1]; [|done].
    by destruct (apply_automatic_repairs s1) as [[[]|x] s2].
  - vm_compute. reflexivity.
  - vm_compute. reflexivity.
Qed.

(** ** The evaluator, method by method *)

Lemma validate_swift_package_structure_run (s : Run) :
  validate_swift_package_structure s =
  if exists_ (fs s) (package_file (base_path s)) then
    match read_text (fs s) (package_file (base_path s)) with
    | inl x =>
        record_issue ("Package validation error: " +:+ exn_str x) "HIGH"
          "Fix Package.swift syntax" s
    | inr content =>
        check_metabase_bridge content (check_package_elements content s).2
    end
  else
    record_issue "Package.swift missing" "CRITICAL" "Create Package.swift" s.
Proof.
  unfold validate_swift_package_structure, package_file,
    check_package_elements, check_metabase_bridge.
  py_run. destruct (exists_ (fs s) _); cbn [negb]; [|done].
  destruct (read_text (fs s) _) as [x|content]; [done|].
  destruct (collect_missing content required_elements []);
    by destruct (contains "MetabaseBridge" content).
Qed.

(** The pass condition of the Dockerfile rule asks every message for the
    word "configured"; neither message of the port test has it. *)
Lemma dockerfile_checks_never_all_configured (content : string) :
  forallb (contains "configured") (dockerfile_checks content) = false.
Proof.
  unfold dockerfile_checks.
  destruct (contains "FROM swift:5.9-focal as builder" content),
    (contains "USER metabase" content), (contains "HEALTHCHECK" content),
    (contains "EXPOSE 3000" content); vm_compute; reflexivity.
Qed.

Lemma validate_containerization_run (s : Run) :
  validate_containerization s =
  if exists_ (fs s) (dockerfile (base_path s)) then
    match read_text (fs s) (dockerfile (base_path s)) with
    | inl x => (Raised x, s)
    | inr content =>
        record_issue "Containerization configuration issues" "HIGH"
          "Fix Dockerfile configuration" s
    end
  else
    record_issue "Dockerfile.bridge missing" "CRITICAL"
      "Create containerization/Dockerfile.bridge" s.
Proof.
  unfold validate_containerization, dockerfile.
  py_run. destruct (exists_ (fs s) _); cbn [negb]; [|done].
  destruct (read_text (fs s) _) as [x|content]; [done|].
  by rewrite dockerfile_checks_never_all_configured.
Qed.

Lemma validate_api_alignment_run (s : Run) :
  validate_api_alignment s =
  if exists_ (fs s) (metabase_bridge_file (base_path s)) then
    match read_text (fs s) (metabase_bridge_file (base_path s)) with
    | inl x => (Raised x, s)
    | inr content =>
        match collect_missing content required_endpoints [] with
        | _ :: _ =>
            record_issue
              ("Missing API endpoints: " +:+
               py_repr_list (collect_missing content required_endpoints []))
              "MEDIUM" "Implement missing API endpoints" s
        | [] =>
            record_validation "api_alignment" "PASSED"
              "All required API endpoints referenced" s
        end
    end
  else
    record_issue "MetabaseBridge.swift missing" "HIGH"
      "Create MetabaseBridge implementation" s.
Proof.
  unfold validate_api_alignment, metabase_bridge_file.
  py_run. destruct (exists_ (fs s) _); cbn [negb]; [|done].
  destruct (read_text (fs s) _) as [x|content]; [done|].
  by destruct (collect_missing content required_endpoints []).
Qed.

Lemma validate_integration_components_run (s : Run) :
  validate_integration_components s =
  match collect_missing_components (fs s)
          (required_components (base_path s)) [] with
  | _ :: _ =>
      record_issue
        ("Missing components: " +:+
         py_repr_list (collect_missing_components (fs s)
                         (required_components (base_path s)) []))
        "CRITICAL" "Create missing component files" s
  | [] =>
      record_validation "integration_components" "PASSED"
        "All integration components present" s
  end.
Proof.
  unfold validate_integration_components. py_run.
  by destruct (collect_missing_components _ _ _).
Qed.


(** ** Repairs that cannot complete *)

Lemma repair_directories_app (pre rest : list path) (s : Run) :
  repair_directories (pre ++ rest) s =
  match repair_directories pre s with
  | (Returned _, s1) => repair_directories rest s1
  | (Raised x, s1) => (Raised x, s1)
  end.
Proof.
  revert s. induction pre as [|d pre IH]; intros s; [done|].
  simpl. rewrite !bind_run.
  destruct (repair_directory d s) as [[[]|x] s1]; [apply IH|done].
Qed.

Lemma repair_directories_failure (pre rest : list path) (d : path)
    (s s1 : Run) (r' : node) (x : exn) :
  repair_directories pre s = (Returned tt, s1) →
  exists_ (fs s1) d = false →
  mkdir_parents (fs s1) d = (Some x, r') →
  repair_directories (pre ++ d :: rest) s = (Raised x, s1).
Proof.
  intros Hpre Hex Hm. rewrite repair_directories_app, Hpre.
  simpl. rewrite bind_run, repair_directory_run, Hex, Hm.
  pose proof (mkdir_parents_failure _ _ _ _ Hm) as ->.
  by rewrite set_fs_same.
Qed.

(** C3, as the code has it.  A repair that cannot complete raises its
    [OSError] to the caller of [apply_automatic_repairs]: a directory
    whose creation fails ends the engine with that error, and so does a
    failing write of the compose file.  The state is then the one that
    the repairs completed before it left: the tree is as the failing call
    found it and nothing is appended to the Repair sequence for it.  The
    error goes on through [run_validation_and_repair], which returns no
    report. *)
Theorem repair_failure_raises :
  (∀ (s s1 : Run) (pre rest : list path) (d : path) (x : exn) (r' : node),
     required_dirs (base_path s) = pre ++ d :: rest →
     repair_directories pre s = (Returned tt, s1) →
     exists_ (fs s1) d = false →
     mkdir_parents (fs s1) d = (Some x, r') →
     apply_automatic_repairs s = (Raised x, s1)) ∧
  (∀ (s s1 : Run) (x : exn),
     repair_missing_directories s = (Returned tt, s1) →
     exists_ (fs s1) (compose_file (base_path s1)) = false →
     write_text (fs s1) (compose_file (base_path s1)) basic_compose = inl x →
     apply_automatic_repairs s = (Raised x, s1)) ∧
  (∀ (s0 s s' : Run) (x : exn),
     evaluate s0 = (Returned tt, s) →
     apply_automatic_repairs s = (Raised x, s') →
     run_validation_and_repair s0 = (Raised x, s')).
Proof.
  split_and!.
  - intros s s1 pre rest d x r' Hds Hpre Hex Hm.
    rewrite apply_automatic_repairs_run, Hds.
    by rewrite (repair_directories_failure pre rest d s s1 r' x).
  - intros s s1 x Hd Hex Hw.
    unfold apply_automatic_repairs. rewrite bind_run, Hd.
    by rewrite repair_configuration_files_run, Hex, Hw.
  - intros s0 s s' x He Ha.
    by rewrite run_validation_and_repair_run, He, Ha.
Qed.

Lemma repair_failure_raises_witness :
  apply_automatic_repairs readonly_project
  = (Raised (OSError EACCES ["proj"; "swift-package"]), readonly_project) ∧
  run_validation_and_repair readonly_project
  = (Raised (OSError EACCES ["proj"; "swift-package"]),
     (evaluate readonly_project).2).
Proof.
  split.
  - apply (proj1 repair_failure_raises _ _ []
             (tail (required_dirs ["proj"])) ["proj"; "swift-package"; "Sources"]
             _ (fs readonly_project));
      vm_compute; reflexivity.
  - apply (proj2 (proj2 repair_failure_raises) readonly_project
             (evaluate readonly_project).2); vm_compute; reflexivity.
Defined.

(** C3 fails as stated: in a project directory that admits no new entry
    the first [mkdir] raises [PermissionError], and the engine passes it
    on to its caller. *)
Lemma repair_failure_is_raised :
  (apply_automatic_repairs readonly_project).1
  = Raised (OSError EACCES ["proj"; "swift-package"]) ∧
  (run_validation_and_repair readonly_project).1
  = Raised (OSError EACCES ["proj"; "swift-package"]).
Proof. split; vm_compute; reflexivity. Qed.

(** ** Missing foundational artifacts *)



(** ** The Dockerfile rule *)




(** ** One outcome per rule *)







(** ** Reads that fail during evaluation *)

Lemma validate_swift_package_structure_returns (s : Run) :
  (validate_swift_package_structure s).1 = Returned tt.
Proof.
  rewrite validate_swift_package_structure_run.
  destruct (exists_ (fs s) _); [|done].
  destruct (read_text (fs s) _) as [x|content]; [done|].
  unfold check_metabase_bridge. by destruct (contains "MetabaseBridge" content).
Qed.

Lemma validate_swift_package_structure_same (s : Run) :
  same_artifacts s (validate_swift_package_structure s).2.
Proof.
  apply preserves_validate_swift_package_structure;
    first [exact same_artifacts_trans | done].
Qed.

Lemma validate_containerization_same (s : Run) :
  same_artifacts s (validate_containerization s).2.
Proof.
  apply preserves_validate_containerization;
    first [exact same_artifacts_trans | done].
Qed.

Lemma evaluate_run (s : Run) :
  evaluate s =
  match validate_containerization (validate_swift_package_structure s).2 with
  | (Returned _, s2) =>
      match validate_api_alignment s2 with
      | (Returned _, s3) => validate_integration_components s3
      | (Raised x, s3) => (Raised x, s3)
      end
  | (Raised x, s2) => (Raised x, s2)
  end.
Proof.
  unfold evaluate. py_run.
  pose proof (validate_swift_package_structure_returns s) as H.
  destruct (validate_swift_package_structure s) as [[[]|x] s1]; [|done].
  simpl. destruct (validate_containerization s1) as [[[]|x] s2]; [|done].
  by destruct (validate_api_alignment s2) as [[[]|x] s3].
Qed.

(** C5, as the code has it.  A failing read of [Package.swift] is caught
    inside [validate_swift_package_structure] and recorded as one Issue of
    severity HIGH, and the method returns.  A failing read of
    [Dockerfile.bridge] or of [MetabaseBridge.swift] is not caught: the
    method raises without recording anything, the error leaves
    [run_validation_and_repair], and no report is returned. *)
Theorem read_failure_handling (s : Run) (x : exn) :
  (exists_ (fs s) (package_file (base_path s)) = true →
   read_text (fs s) (package_file (base_path s)) = inl x →
   validate_swift_package_structure s =
     record_issue ("Package validation error: " +:+ exn_str x) "HIGH"
       "Fix Package.swift syntax" s) ∧
  (exists_ (fs s) (dockerfile (base_path s)) = true →
   read_text (fs s) (dockerfile (base_path s)) = inl x →
   validate_containerization s = (Raised x, s) ∧
   run_validation_and_repair s =
     (Raised x, (validate_swift_package_structure s).2)) ∧
  (exists_ (fs s) (metabase_bridge_file (base_path s)) = true →
   read_text (fs s) (metabase_bridge_file (base_path s)) = inl x →
   validate_api_alignment s = (Raised x, s) ∧
   ∀ s2, validate_containerization (validate_swift_package_structure s).2
         = (Returned tt, s2) →
         run_validation_and_repair s = (Raised x, s2)).
Proof.
  split_and!; intros Hex Hr.
  - by rewrite validate_swift_package_structure_run, Hex, Hr.
  - split; [by rewrite validate_containerization_run, Hex, Hr|].
    rewrite run_validation_and_repair_run, evaluate_run.
    destruct (validate_swift_package_structure_same s) as (Hf & Hb & _).
    by rewrite validate_containerization_run, Hf, Hb, Hex, Hr.
  - split; [by rewrite validate_api_alignment_run, Hex, Hr|].
    intros s2 H2.
    rewrite run_validation_and_repair_run, evaluate_run, H2.
    destruct (validate_swift_package_structure_same s) as (Hf & Hb & _).
    pose proof (validate_containerization_same
                  (validate_swift_package_structure s).2) as (Hf' & Hb' & _).
    rewrite H2 in Hf', Hb'. simpl in Hf', Hb'.
    rewrite validate_api_alignment_run, Hf', Hb', Hf, Hb, Hex, Hr. done.
Qed.

Lemma read_failure_handling_witness :
  (run_validation_and_repair unreadable_dockerfile_project).1
  = Raised (OSError EACCES ["proj"; "containerization"; "Dockerfile.bridge"]) ∧
  (run_validation_and_repair unreadable_bridge_project).1
  = Raised (OSError EACCES
              ["proj"; "swift-package"; "Sources"; "MetabaseBridge";
               "MetabaseBridge.swift"]) ∧
  (validate_swift_package_structure unreadable_package_project).1 = Returned tt.
Proof.
  split_and!.
  - destruct (proj1 (proj2 (read_failure_handling unreadable_dockerfile_project
       (OSError EACCES ["proj"; "containerization"; "Dockerfile.bridge"]))))
      as [_ ->]; vm_compute; reflexivity.
  - destruct (proj2 (proj2 (read_failure_handling unreadable_bridge_project
       (OSError EACCES ["proj"; "swift-package"; "Sources"; "MetabaseBridge";
                        "MetabaseBridge.swift"]))))
      as [_ H]; [vm_compute; reflexivity..|].
    rewrite (H (validate_containerization
                  (validate_swift_package_structure
                     unreadable_bridge_project).2).2);
      vm_compute; reflexivity.
  - rewrite (proj1 (read_failure_handling unreadable_package_project
       (OSError EACCES ["proj"; "swift-package"; "Package.swift"])));
      vm_compute; reflexivity.
Defined.

(** C5 fails as stated: [Package.swift] exists but cannot be read; the
    error is turned into a recorded Issue and the run returns a report. *)
Lemma package_read_failure_is_recorded :
  exists_ (fs unreadable_package_project)
    (package_file (base_path unreadable_package_project)) = true ∧
  read_text (fs unreadable_package_project)
    (package_file (base_path unreadable_package_project))
  = inl (OSError EACCES ["proj"; "swift-package"; "Package.swift"]) ∧
  match (run_validation_and_repair unreadable_package_project).1 with
  | Returned report =>
      head (issue <$> report_issues_found report) =
      Some ("Package validation error: [Errno 13] Permission denied: " +:+
            "'/proj/swift-package/Package.swift'")
  | Raised _ => False
  end.
Proof. split_and!; vm_compute; reflexivity. Qed.

(** ** Missing keywords *)





(** ** Health *)

Lemma all_from_spec (f : Z → bool) (count : nat) :
  ∀ start, all_from f start count = true →
    ∀ z, (start ≤ z < start + Z.of_nat count)%Z → f z = true.
Proof.
  induction count as [|c IH]; intros start H z Hz; [lia|].
  simpl in H. apply andb_prop in H as [Hs Hrest].
  destruct (decide (z = start)) as [->|Hne]; [done|].
  apply (IH (start + 1)%Z); [done|lia].
Qed.

Lemma Qle_bool_percentage (k passed total : Z) :
  (0 < total)%Z →
  Qle_bool (inject_Z k) (exact_percentage passed total)
  = (k * total <=? 100 * passed)%Z.
Proof.
  intros Ht. destruct total as [|t|t]; try lia.
  unfold Qle_bool, exact_percentage, Qdiv, Qinv, Qmult, inject_Z. simpl.
  f_equal; lia.
Qed.

Lemma thresholds_agree_tier (passed total : Z) :
  (0 < total)%Z → thresholds_agree passed total = true →
  float_tier passed total = exact_tier passed total.
Proof.
  intros Ht H. unfold thresholds_agree in H. cbv zeta in H.
  apply andb_prop in H as [H H50]. apply andb_prop in H as [H90 H70].
  apply Bool.eqb_prop in H90, H70, H50.
  unfold float_tier, health_tier, exact_tier.
  change 90%Q with (inject_Z 90). change 70%Q with (inject_Z 70).
  change 50%Q with (inject_Z 50).
  rewrite !Qle_bool_percentage by done.
  by rewrite H90, H70, H50.
Qed.

(** Every pair of counts with [passed <= total <= 1000], by evaluation. *)
Lemma thresholds_agree_1000 : all_from thresholds_agree_below 1 1000 = true.
Proof. vm_compute. reflexivity. Qed.

Lemma float_tier_exact (passed total : nat) :
  1 ≤ total ≤ 1000 → passed ≤ total →
  health_tier (health_percentage passed total)
  = exact_tier (Z.of_nat passed) (Z.of_nat total).
Proof.
  intros Ht Hp.
  change (health_tier (health_percentage passed total))
    with (float_tier (Z.of_nat passed) (Z.of_nat total)).
  apply thresholds_agree_tier; [lia|].
  assert (H : thresholds_agree_below (Z.of_nat total) = true).
  { apply (all_from_spec thresholds_agree_below 1000 1 thresholds_agree_1000).
    lia. }
  apply (all_from_spec (λ p, thresholds_agree p (Z.of_nat total))
           (S (Z.to_nat (Z.of_nat total))) 0 H).
  lia.
Qed.

Lemma passed_validations_le (results : gmap string ValidationRecord) :
  passed_validations results ≤ size results.
Proof.
  unfold passed_validations.
  rewrite <- (length_map_to_list results), <- (length_fmap snd).
  apply length_filter.
Qed.

Lemma calculate_overall_health_nonempty (results : gmap string ValidationRecord) :
  size results ≠ 0 →
  calculate_overall_health results =
  health_tier (health_percentage (passed_validations results) (size results)).
Proof.
  intros H. unfold calculate_overall_health.
  by destruct (size results).
Qed.

(** C1.  For a mapping with at least one entry the tier is read off the
    percentage [passed / total * 100] with inclusive lower bounds: 90 and
    above is EXCELLENT, 70 and above GOOD, 50 and above FAIR, anything
    lower POOR.  Up to a thousand entries the floating-point percentage
    falls in the same tier as the exact quotient, so that 9 of 10 is
    EXCELLENT, 7 of 10 GOOD, 5 of 10 FAIR and 4 of 10 POOR. *)
Theorem health_tier_bounds (results : gmap string ValidationRecord) :
  size results ≠ 0 →
  let passed := passed_validations results in
  let total := size results in
  let percentage := health_percentage passed total in
  calculate_overall_health results =
    (if PrimFloat.leb 90 percentage then "EXCELLENT"
     else if PrimFloat.leb 70 percentage then "GOOD"
     else if PrimFloat.leb 50 percentage then "FAIR"
     else "POOR") ∧
  (total ≤ 1000 →
   calculate_overall_health results
   = exact_tier (Z.of_nat passed) (Z.of_nat total)) ∧
  (total = 10 →
   (passed = 9 → calculate_overall_health results = "EXCELLENT") ∧
   (passed = 7 → calculate_overall_health results = "GOOD") ∧
   (passed = 5 → calculate_overall_health results = "FAIR") ∧
   (passed = 4 → calculate_overall_health results = "POOR")).
Proof.
  intros Hne. simpl.
  rewrite (calculate_overall_health_nonempty _ Hne).
  split_and!.
  - reflexivity.
  - intros Hle. apply float_tier_exact; [lia|apply passed_validations_le].
  - intros ->. split_and!; intros ->; vm_compute; reflexivity.
Qed.

Lemma health_tier_bounds_witness :
  calculate_overall_health (sample_results 9 10) = "EXCELLENT" ∧
  calculate_overall_health (sample_results 7 10) = "GOOD" ∧
  calculate_overall_health (sample_results 5 10) = "FAIR" ∧
  calculate_overall_health (sample_results 4 10) = "POOR" ∧
  calculate_overall_health (sample_results 2 3) = exact_tier 2 3.
Proof.
  split_and!.
  - apply (health_tier_bounds (sample_results 9 10)); vm_compute;
      first [reflexivity | discriminate].
  - apply (health_tier_bounds (sample_results 7 10)); vm_compute;
      first [reflexivity | discriminate].
  - apply (health_tier_bounds (sample_results 5 10)); vm_compute;
      first [reflexivity | discriminate].
  - apply (health_tier_bounds (sample_results 4 10)); vm_compute;
      first [reflexivity | discriminate].
  - apply (proj1 (proj2 (health_tier_bounds (sample_results 2 3)
                           ltac:(vm_compute; discriminate)))).
    vm_compute. lia.
Defined.

(** C7.  The tier is UNKNOWN for the empty mapping, and for no other. *)
Theorem empty_results_unknown (results : gmap string ValidationRecord) :
  calculate_overall_health ∅ = "UNKNOWN" ∧
  (calculate_overall_health results = "UNKNOWN" ↔ results = ∅).
Proof.
  split; [reflexivity|]. split.
  - intros H. apply map_size_empty_iff.
    destruct (decide (size results = 0)) as [|Hne]; [done|].
    rewrite (calculate_overall_health_nonempty _ Hne) in H.
    unfold health_tier in H.
    by repeat destruct (PrimFloat.leb _ _).
  - by intros ->.
Qed.

(* ===================================================================== *)
(** * Further properties of the code *)
(* ===================================================================== *)

(** ** Bookkeeping across calls *)

Section Bookkeeping.
Variable R : Run → Run → Prop.
Hypothesis R_refl : ∀ s, R s s.
Hypothesis R_trans : ∀ s1 s2 s3, R s1 s2 → R s2 s3 → R s1 s3.
Hypothesis R_issue : ∀ i sev sol s, R s (record_issue i sev sol s).2.
Hypothesis R_pass : ∀ c msg s,
  c ∈ component_names → R s (record_validation c "PASSED" msg s).2.
Hypothesis R_fs : ∀ s root, R s (set_fs root s).
Hypothesis R_repair : ∀ s x, R s (set_repairs_applied (λ l, l ++ [x]) s).

Local Ltac known_component :=
  unfold component_names; repeat first [apply list_elem_of_here | apply list_elem_of_further].

Lemma keeps_check_package_elements (content : string) :
  preserves R (check_package_elements content).
Proof.
  intros s. unfold check_package_elements.
  destruct (collect_missing content required_elements []);
    [apply R_pass; known_component|apply R_issue].
Qed.

Lemma keeps_check_metabase_bridge (content : string) :
  preserves R (check_metabase_bridge content).
Proof.
  intros s. unfold check_metabase_bridge.
  destruct (contains "MetabaseBridge" content);
    [apply R_pass; known_component|apply R_issue].
Qed.

Lemma keeps_validate_swift_package_structure :
  preserves R validate_swift_package_structure.
Proof.
  intros s. rewrite validate_swift_package_structure_run.
  destruct (exists_ (fs s) _); [|apply R_issue].
  destruct (read_text (fs s) _) as [x|content]; [apply R_issue|].
  eapply R_trans; [apply keeps_check_package_elements|].
  apply keeps_check_metabase_bridge.
Qed.

Lemma keeps_validate_containerization : preserves R validate_containerization.
Proof.
  intros s. rewrite validate_containerization_run.
  destruct (exists_ (fs s) _); [|apply R_issue].
  destruct (read_text (fs s) _) as [x|content]; [apply R_refl|apply R_issue].
Qed.

Lemma keeps_validate_api_alignment : preserves R validate_api_alignment.
Proof.
  intros s. rewrite validate_api_alignment_run.
  destruct (exists_ (fs s) _); [|apply R_issue].
  destruct (read_text (fs s) _) as [x|content]; [apply R_refl|].
  destruct (collect_missing content required_endpoints []);
    [apply R_pass; known_component|apply R_issue].
Qed.

Lemma keeps_validate_integration_components :
  preserves R validate_integration_components.
Proof.
  intros s. rewrite validate_integration_components_run.
  destruct (collect_missing_components _ _ _);
    [apply R_pass; known_component|apply R_issue].
Qed.

Lemma keeps_evaluate : preserves R evaluate.
Proof.
  unfold evaluate.
  apply preserves_bind; [done|apply keeps_validate_swift_package_structure|].
  intros _.
  apply preserves_bind; [done|apply keeps_validate_containerization|].
  intros _.
  apply preserves_bind; [done|apply keeps_validate_api_alignment|].
  intros _. apply keeps_validate_integration_components.
Qed.

Lemma keeps_repair_directory (d : path) : preserves R (repair_directory d).
Proof.
  intros s. rewrite repair_directory_run.
  destruct (exists_ (fs s) d); [apply R_refl|].
  destruct (mkdir_parents (fs s) d) as [[x|] root']; [apply R_fs|].
  eapply R_trans; [apply R_fs|apply R_repair].
Qed.

Lemma keeps_repair_directories (ds : list path) :
  preserves R (repair_directories ds).
Proof.
  induction ds as [|d ds IH]; [apply preserves_ret, R_refl|].
  simpl. apply preserves_bind; [done|apply keeps_repair_directory|].
  intros _. apply IH.
Qed.

Lemma keeps_repair_configuration_files :
  preserves R repair_configuration_files.
Proof.
  intros s. rewrite repair_configuration_files_run.
  destruct (exists_ (fs s) _); [apply R_refl|].
  destruct (write_text (fs s) _ basic_compose) as [x|root']; [apply R_refl|].
  eapply R_trans; [apply R_fs|apply R_repair].
Qed.

Lemma keeps_apply_automatic_repairs : preserves R apply_automatic_repairs.
Proof.
  intros s. rewrite apply_automatic_repairs_run.
  pose proof (keeps_repair_directories (required_dirs (base_path s)) s) as H.
  destruct (repair_directories _ s) as [[[]|x] s1]; [|done].
  eapply R_trans; [exact H|apply keeps_repair_configuration_files].
Qed.

Lemma keeps_run_validation_and_repair :
  preserves R run_validation_and_repair.
Proof.
  intros s. rewrite run_validation_and_repair_run.
  pose proof (keeps_evaluate s) as He.
  destruct (evaluate s) as [[[]|x] s1]; [|done].
  pose proof (keeps_apply_automatic_repairs s1) as Ha.
  destruct (apply_automatic_repairs s1) as [[[]|x] s2];
    eapply R_trans; [exact He|exact Ha|exact He|exact Ha].
Qed.
End Bookkeeping.

Lemma bookkeeping_grows_refl (s : Run) : bookkeeping_grows s s.
Proof. unfold bookkeeping_grows. split_and!; auto. Qed.

Lemma bookkeeping_grows_trans (s1 s2 s3 : Run) :
  bookkeeping_grows s1 s2 → bookkeeping_grows s2 s3 → bookkeeping_grows s1 s3.
Proof.
  intros (Hb & Hc & Ht & Hi & Hr & Hk & Hn) (Hb' & Hc' & Ht' & Hi' & Hr' & Hk' & Hn').
  split_and!; try congruence; try lia; try (by etrans); [auto|].
  intros k r H. destruct (Hn' k r H) as [H2|]; [|by right]. auto.
Qed.

Lemma bookkeeping_grows_issue (i sev sol : string) (s : Run) :
  bookkeeping_grows s (record_issue i sev sol s).2.
Proof.
  rewrite record_issue_run. unfold bookkeeping_grows. simpl.
  split_and!; auto. by apply prefix_app_r.
Qed.

Lemma bookkeeping_grows_pass (c msg : string) (s : Run) :
  c ∈ component_names →
  bookkeeping_grows s (record_validation c "PASSED" msg s).2.
Proof.
  intros Hc. rewrite record_validation_run. unfold bookkeeping_grows. simpl.
  split_and!; auto.
  - intros k Hk. apply lookup_insert_is_Some.
    destruct (decide (c = k)); auto.
  - intros k r. rewrite lookup_insert. case_decide as Hk.
    + intros [= <-]. subst k. by right.
    + auto.
Qed.

Lemma bookkeeping_grows_fs (s : Run) (root : node) :
  bookkeeping_grows s (set_fs root s).
Proof. unfold bookkeeping_grows. simpl. split_and!; auto. Qed.

Lemma bookkeeping_grows_repair (s : Run) (x : string) :
  bookkeeping_grows s (set_repairs_applied (λ l, l ++ [x]) s).
Proof.
  unfold bookkeeping_grows. simpl. split_and!; auto. by apply prefix_app_r.
Qed.

Local Ltac grows_premises :=
  first [exact bookkeeping_grows_refl | exact bookkeeping_grows_trans
        | exact bookkeeping_grows_issue | exact bookkeeping_grows_pass
        | exact bookkeeping_grows_fs | exact bookkeeping_grows_repair].

Lemma evaluate_grows (s : Run) : bookkeeping_grows s (evaluate s).2.
Proof. apply keeps_evaluate; grows_premises. Qed.

Lemma validate_swift_package_structure_grows (s : Run) :
  bookkeeping_grows s (validate_swift_package_structure s).2.
Proof. apply keeps_validate_swift_package_structure; grows_premises. Qed.

Lemma validate_api_alignment_grows (s : Run) :
  bookkeeping_grows s (validate_api_alignment s).2.
Proof. apply keeps_validate_api_alignment; grows_premises. Qed.

Lemma validate_integration_components_grows (s : Run) :
  bookkeeping_grows s (validate_integration_components s).2.
Proof. apply keeps_validate_integration_components; grows_premises. Qed.

Lemma apply_automatic_repairs_grows (s : Run) :
  bookkeeping_grows s (apply_automatic_repairs s).2.
Proof. apply keeps_apply_automatic_repairs; grows_premises. Qed.

Lemma run_validation_and_repair_grows (s : Run) :
  bookkeeping_grows s (run_validation_and_repair s).2.
Proof. apply keeps_run_validation_and_repair; grows_premises. Qed.

(** X1.  Whatever the state and whether the call returns or raises, the
    evaluation phase, the Repair Engine and the whole run only add to the
    bookkeeping: the issues and repairs found at the start stay as a
    prefix of the sequences at the end, no validation record is removed,
    and every record that is new or overwritten has status PASSED under
    one of the five component names. *)
Theorem bookkeeping_only_grows (s : Run) :
  bookkeeping_grows s (evaluate s).2 ∧
  bookkeeping_grows s (apply_automatic_repairs s).2 ∧
  bookkeeping_grows s (run_validation_and_repair s).2.
Proof.
  split_and!;
    [apply evaluate_grows|apply apply_automatic_repairs_grows
    |apply run_validation_and_repair_grows].
Qed.

(** ** What a fresh validator can report *)

Lemma passed_validations_all (results : gmap string ValidationRecord) :
  (∀ k r, results !! k = Some r → status r = "PASSED") →
  passed_validations results = size results.
Proof.
  intros H. unfold passed_validations.
  rewrite <- (length_map_to_list results), <- (length_fmap snd).
  assert (Hall : Forall (λ r, status r = "PASSED") (map_to_list results).*2).
  { apply Forall_fmap, Forall_forall. intros [k r] Hkr.
    apply elem_of_map_to_list in Hkr. by apply (H k). }
  induction Hall as [|r l Hr Hl IH]; [done|].
  rewrite filter_cons_True by done. simpl. by rewrite IH.
Qed.

Lemma component_names_NoDup : NoDup component_names.
Proof. apply (bool_decide_unpack _). vm_compute. reflexivity. Qed.

Lemma size_known_components (results : gmap string ValidationRecord) :
  (∀ k r, results !! k = Some r → k ∈ component_names) →
  size results ≤ 5.
Proof.
  intros H. rewrite <- size_dom.
  change 5 with (length component_names).
  rewrite <- (size_list_to_set (C:=gset string) _ component_names_NoDup).
  apply subseteq_size. intros k Hk.
  apply elem_of_dom in Hk as [r Hr]. apply elem_of_list_to_set. by eapply H.
Qed.

Lemma exact_tier_all_passed (n : nat) :
  1 ≤ n → exact_tier (Z.of_nat n) (Z.of_nat n) = "EXCELLENT".
Proof.
  intros Hn. unfold exact_tier. change 90%Q with (inject_Z 90).
  rewrite Qle_bool_percentage by lia.
  by rewrite (proj2 (Z.leb_le _ _)) by lia.
Qed.

Lemma health_of_passed_records (results : gmap string ValidationRecord) :
  (∀ k r, results !! k = Some r →
          k ∈ component_names ∧ status r = "PASSED") →
  calculate_overall_health results =
  if decide (results = ∅) then "UNKNOWN" else "EXCELLENT".
Proof.
  intros H. case_decide as He; [by subst|].
  assert (Hs : size results ≠ 0) by by rewrite map_size_empty_iff.
  rewrite (calculate_overall_health_nonempty _ Hs).
  rewrite passed_validations_all by (intros k r Hr; by destruct (H k r Hr)).
  rewrite float_tier_exact.
  - apply exact_tier_all_passed. lia.
  - split; [lia|].
    etrans; [apply size_known_components; intros k r Hr; by destruct (H k r Hr)|lia].
  - done.
Qed.

Lemma main_run (root : node) (clk : nat → float) :
  main root clk =
  match run_validation_and_repair (init default_base_path root clk) with
  | (Returned report, s') =>
      (Returned (if String.eqb (overall_health report) "EXCELLENT" ||
                    String.eqb (overall_health report) "GOOD"
                 then 0%Z else 1%Z), s')
  | (Raised x, s') => (Raised x, s')
  end.
Proof.
  unfold main. rewrite bind_run.
  by destruct (run_validation_and_repair _) as [[report|x] s'].
Qed.

(** X2.  A run of a fresh validator that returns reports UNKNOWN when no
    rule passed and EXCELLENT as soon as one did, whatever the number of
    issues: GOOD, FAIR and POOR are never reported, because every record
    stored has status PASSED.  So [main] returns 0 exactly when at least
    one rule passed, and 1 otherwise. *)
Theorem fresh_run_health (base : path) (root : node) (clk : nat → float)
    (report : Report) (s' : Run) :
  run_validation_and_repair (init base root clk) = (Returned report, s') →
  overall_health report =
    (if decide (report_validation_results report = ∅)
     then "UNKNOWN" else "EXCELLENT") ∧
  (base = default_base_path →
   main root clk =
     (Returned (if decide (report_validation_results report = ∅)
                then 1%Z else 0%Z), s')).
Proof.
  intros Hrun.
  assert (Hh : overall_health report =
               if decide (report_validation_results report = ∅)
               then "UNKNOWN" else "EXCELLENT").
  { destruct (run_validation_and_repair_grows (init base root clk))
      as (_ & _ & _ & _ & _ & _ & Hn).
    rewrite run_validation_and_repair_run in Hrun, Hn.
    destruct (evaluate _) as [[[]|x] s1]; [|done].
    destruct (apply_automatic_repairs s1) as [[[]|x] s2]; [|done].
    injection Hrun as <- <-. simpl in *.
    apply health_of_passed_records. intros k r Hr.
    destruct (Hn k r Hr) as [Hinit|]; [|done]. by rewrite lookup_empty in Hinit. }
  split; [done|]. intros ->. rewrite main_run, Hrun, Hh.
  by case_decide.
Qed.

Lemma fresh_run_health_witness :
  overall_health
    (report_of (run_validation_and_repair
                  (default_run (bridge_only default_base_path))).1)
  = "EXCELLENT" ∧
  (main (bridge_only default_base_path) sample_clock).1 = Returned 0%Z ∧
  (main (dir []) sample_clock).1 = Returned 1%Z.
Proof.
  split_and!.
  - rewrite (proj1 (fresh_run_health default_base_path
                      (bridge_only default_base_path) sample_clock
                      (report_of (run_validation_and_repair
                           (default_run (bridge_only default_base_path))).1)
                      (run_validation_and_repair
                           (default_run (bridge_only default_base_path))).2
                      ltac:(vm_compute; reflexivity)));
      vm_compute; reflexivity.
  - rewrite (proj2 (fresh_run_health default_base_path
                      (bridge_only default_base_path) sample_clock
                      (report_of (run_validation_and_repair
                           (default_run (bridge_only default_base_path))).1)
                      (run_validation_and_repair
                           (default_run (bridge_only default_base_path))).2
                      ltac:(vm_compute; reflexivity)) eq_refl);
      vm_compute; reflexivity.
  - rewrite (proj2 (fresh_run_health default_base_path (dir []) sample_clock
                      (report_of (run_validation_and_repair
                                    (default_run (dir []))).1)
                      (run_validation_and_repair (default_run (dir []))).2
                      ltac:(vm_compute; reflexivity)) eq_refl);
      vm_compute; reflexivity.
Defined.

(** ** The Issue every report carries *)

Lemma validate_api_alignment_same (s : Run) :
  same_artifacts s (validate_api_alignment s).2.
Proof.
  apply preserves_validate_api_alignment;
    first [exact same_artifacts_trans | done].
Qed.


(** X3.  A run that returns has appended the Issue of the Dockerfile rule:
    after the issues found at the start and those of the Swift-package
    rules comes either "Dockerfile.bridge missing" or "Containerization
    configuration issues".  No report of a run is free of issues. *)
Theorem report_has_containerization_issue (s s' : Run) (report : Report) :
  run_validation_and_repair s = (Returned report, s') →
  ∃ before i after,
    report_issues_found report = issues_found s ++ before ++ i :: after ∧
    (issue i = "Dockerfile.bridge missing" ∧ severity i = "CRITICAL" ∨
     issue i = "Containerization configuration issues" ∧ severity i = "HIGH").
Proof.
  intros Hrun. rewrite run_validation_and_repair_run, evaluate_run in Hrun.
  destruct (validate_swift_package_structure_grows s)
    as (_ & _ & _ & [before Hb] & _).
  set (s1 := (validate_swift_package_structure s).2) in *.
  assert (Hc : (∃ i, validate_containerization s1
                     = (Returned tt,
                        set_issues_found (λ l, l ++ [i])
                          (set_ticks (S (ticks s1)) s1)) ∧
                     (issue i = "Dockerfile.bridge missing" ∧
                      severity i = "CRITICAL" ∨
                      issue i = "Containerization configuration issues" ∧
                      severity i = "HIGH")) ∨
               (∃ x, validate_containerization s1 = (Raised x, s1))).
  { rewrite validate_containerization_run.
    destruct (exists_ (fs s1) _).
    - destruct (read_text (fs s1) _) as [x|content]; [right; by exists x|].
      left. eexists. split; [apply record_issue_run|]. by right.
    - left. eexists. split; [apply record_issue_run|]. by left. }
  destruct Hc as [(i & Hc & Hi)|[x Hc]]; rewrite Hc in Hrun; [|done].
  set (s2 := set_issues_found _ _) in *.
  assert (Hrest : issues_found s2 `prefix_of` issues_found s').
  { pose proof (validate_api_alignment_grows s2) as (_ & _ & _ & H3 & _).
    destruct (validate_api_alignment s2) as [[[]|x] s3]; [|done].
    pose proof (validate_integration_components_grows s3)
      as (_ & _ & _ & H4 & _).
    destruct (validate_integration_components s3) as [[[]|x] s4]; [|done].
    pose proof (apply_automatic_repairs_grows s4) as (_ & _ & _ & H5 & _).
    destruct (apply_automatic_repairs s4) as [[[]|x] s5]; [|done].
    injection Hrun as _ <-. simpl in *. by do 2 (etrans; [eassumption|]). }
  destruct Hrest as [after Ha].
  assert (report_issues_found report = issues_found s').
  { destruct (validate_api_alignment s2) as [[[]|x] s3]; [|done].
    destruct (validate_integration_components s3) as [[[]|x] s4]; [|done].
    destruct (apply_automatic_repairs s4) as [[[]|x] s5]; [|done].
    by injection Hrun as <- <-. }
  exists before, i, after. split; [|done].
  rewrite H, Ha. unfold s2. simpl. rewrite Hb.
  by rewrite <- !app_assoc.
Qed.

Lemma report_has_containerization_issue_witness :
  ∃ before i after,
    report_issues_found
      (report_of (run_validation_and_repair complete_dockerfile_project).1)
    = [] ++ before ++ i :: after ∧
    (issue i = "Dockerfile.bridge missing" ∧ severity i = "CRITICAL" ∨
     issue i = "Containerization configuration issues" ∧ severity i = "HIGH").
Proof.
  apply (report_has_containerization_issue complete_dockerfile_project
           (run_validation_and_repair complete_dockerfile_project).2).
  vm_compute. reflexivity.
Defined.

(** ** Why a phase raises *)






(** ** What the Repair Engine leaves behind *)



(** ** What a system call leaves alone *)

Lemma stat_app (p k : path) :
  ∀ n, stat n (p ++ k) =
       match stat n p with inl e => inl e | inr c => stat c k end.
Proof.
  induction p as [|x p IH]; intros n; [done|]. simpl.
  destruct n as [r w c|w es]; [done|]. by destruct (es !! x).
Qed.

Lemma exists_prefix (n : node) (p q : path) :
  p `prefix_of` q → exists_ n p = false → exists_ n q = false.
Proof.
  intros [k ->]. unfold exists_. rewrite stat_app.
  by destruct (stat n p).
Qed.

(** A call on [p] does not change what [stat] answers on a path that
    neither leads to [p] nor lies below it. *)
Lemma update_entry_stat_apart (root_err : errno) leaf (p : path) :
  ∀ n n' q, update_entry root_err leaf n p = inr n' →
    ¬ q `prefix_of` p → ¬ p `prefix_of` q → stat n' q = stat n q.
Proof.
  induction p as [|x p IH]; intros n n' q H Hqp Hpq; simpl in H; [done|].
  destruct n as [r w c|w es]; [done|].
  destruct q as [|z q]; [by destruct Hqp; apply prefix_nil|].
  destruct p as [|y p].
  - destruct (leaf w (es !! x)) as [e|c]; [done|]. injection H as <-.
    simpl. destruct (decide (x = z)) as [->|Hne].
    + destruct Hpq. apply prefix_cons, prefix_nil.
    + by rewrite lookup_insert_ne.
  - destruct (es !! x) as [c|] eqn:Hx; [|done].
    destruct (update_entry root_err leaf c (y :: p)) as [e|c'] eqn:Hc; [done|].
    injection H as <-. simpl.
    destruct (decide (x = z)) as [->|Hne].
    + rewrite lookup_insert_eq, Hx.
      apply (IH _ _ _ Hc); intros Hp; [apply Hqp|apply Hpq]; by apply prefix_cons.
    + by rewrite lookup_insert_ne.
Qed.

(** [os.mkdir] makes an empty directory, so below it nothing is found,
    as before: it changes [stat] only on the paths that lead to it. *)
Lemma os_mkdir_stat_off (p : path) :
  ∀ n n' q, os_mkdir n p = inr n' → ¬ q `prefix_of` p → stat n' q = stat n q.
Proof.
  unfold os_mkdir.
  induction p as [|x p IH]; intros n n' q H Hqp; simpl in H; [done|].
  destruct n as [r w c|w es]; [done|].
  destruct q as [|z q]; [by destruct Hqp; apply prefix_nil|].
  destruct p as [|y p].
  - destruct (es !! x) as [c|] eqn:Hx; simpl in H; [done|].
    destruct w; [|done]. injection H as <-.
    simpl. destruct (decide (x = z)) as [->|Hne].
    + rewrite lookup_insert_eq, Hx.
      destruct q as [|y q]; [by destruct Hqp|]. simpl. by rewrite lookup_empty.
    + by rewrite lookup_insert_ne.
  - destruct (es !! x) as [c|] eqn:Hx; [|done].
    destruct (update_entry EEXIST mkdir_leaf c (y :: p)) as [e|c'] eqn:Hc;
      [done|].
    injection H as <-. simpl.
    destruct (decide (x = z)) as [->|Hne].
    + rewrite lookup_insert_eq, Hx.
      apply (IH _ _ _ Hc). intros Hp. apply Hqp. by apply prefix_cons.
    + by rewrite lookup_insert_ne.
Qed.

Lemma mkdir_exist_ok_stat_off (n n' : node) (p q : path) (o : option exn) :
  mkdir_exist_ok n p = (o, n') → ¬ q `prefix_of` p → stat n' q = stat n q.
Proof.
  intros H Hq.
  destruct (mkdir_exist_ok_cases n p) as [(n1 & Hm & E)|[[_ E]|[x E]]];
    rewrite E in H; injection H as _ <-; [|done..].
  by eapply os_mkdir_stat_off.
Qed.

Lemma mkdir_parents_rev_stat_off (rp : list string) (q : path) :
  ∀ root root' o, mkdir_parents_rev root rp = (o, root') →
    ¬ q `prefix_of` rev rp → stat root' q = stat root q.
Proof.
  induction rp as [|y rp IH]; intros root root' o H Hq.
  - simpl in H. destruct (is_dir root []); by injection H as _ <-.
  - simpl in H, Hq.
    assert (Hq' : ¬ q `prefix_of` rev rp).
    { intros Hp. apply Hq. by apply prefix_app_r. }
    destruct (os_mkdir root (rev rp ++ [y])) as [e|n1] eqn:Hm.
    + assert (Hother : (if is_dir root (rev rp ++ [y]) then (None, root)
                        else (Some (OSError e (rev rp ++ [y])), root))
                       = (o, root') → stat root' q = stat root q).
      { destruct (is_dir root (rev rp ++ [y])); by intros [= _ <-]. }
      destruct e; try (by apply Hother).
      destruct (mkdir_parents_rev root rp) as [[x1|] root1] eqn:Hr.
      * injection H as _ <-. by eapply IH.
      * rewrite (mkdir_exist_ok_stat_off _ _ _ _ _ H Hq). by eapply IH.
    + injection H as _ <-. by eapply os_mkdir_stat_off.
Qed.

Lemma mkdir_parents_stat_off (root root' : node) (p q : path) (o : option exn) :
  mkdir_parents root p = (o, root') → ¬ q `prefix_of` p →
  stat root' q = stat root q.
Proof.
  intros H Hq. eapply mkdir_parents_rev_stat_off; [exact H|].
  by rewrite rev_involutive.
Qed.

Lemma write_text_stat_apart (root root' : node) (p q : path) (text : string) :
  write_text root p text = inr root' →
  ¬ q `prefix_of` p → ¬ p `prefix_of` q → stat root' q = stat root q.
Proof.
  unfold write_text.
  destruct (update_entry EISDIR (write_leaf text) root p) eqn:H; [done|].
  intros [= <-]. by eapply update_entry_stat_apart.
Qed.

(** ** What the Repair Engine leaves alone *)

Lemma repair_directory_stat_off (d q : path) (s s' : Run) (o : outcome unit) :
  repair_directory d s = (o, s') → ¬ q `prefix_of` d →
  stat (fs s') q = stat (fs s) q.
Proof.
  intros H Hq.
  destruct (repair_directory_cases d s)
    as [[_ E]|[(x & _ & _ & E)|(root' & _ & Hm & E)]];
    rewrite E in H; injection H as _ <-; [done..|].
  simpl. by eapply mkdir_parents_stat_off.
Qed.

Lemma repair_directories_stat_off (ds : list path) (q : path) :
  (∀ d, d ∈ ds → ¬ q `prefix_of` d) →
  ∀ s s' o, repair_directories ds s = (o, s') →
    stat (fs s') q = stat (fs s) q.
Proof.
  induction ds as [|d ds IH]; intros Hq s s' o H.
  - by injection H as _ <-.
  - simpl in H. rewrite bind_run in H.
    destruct (repair_directory d s) as [[[]|x] s1] eqn:Hd.
    + rewrite (IH (λ d' Hd', Hq d' (list_elem_of_further _ _ _ Hd')) _ _ _ H).
      eapply repair_directory_stat_off; [exact Hd|].
      apply Hq, list_elem_of_here.
    + injection H as _ <-. eapply repair_directory_stat_off; [exact Hd|].
      apply Hq, list_elem_of_here.
Qed.

Lemma apply_automatic_repairs_stat_off (s : Run) (q : path) :
  (∀ d, d ∈ required_dirs (base_path s) → ¬ q `prefix_of` d) →
  ¬ q `prefix_of` compose_file (base_path s) →
  ¬ compose_file (base_path s) `prefix_of` q →
  stat (fs (apply_automatic_repairs s).2) q = stat (fs s) q.
Proof.
  intros Hd Hqc Hcq. rewrite apply_automatic_repairs_run.
  destruct (repair_directories (required_dirs (base_path s)) s)
    as [[[]|y] s1] eqn:Hr.
  - pose proof (repair_directories_stat_off _ q Hd _ _ _ Hr) as H1.
    destruct (repair_directories_mono _ [] _ _ _ Hr) as [Hb _].
    rewrite repair_configuration_files_run, Hb.
    destruct (exists_ (fs s1) _); [done|].
    destruct (write_text (fs s1) _ basic_compose) as [x|root'] eqn:Hw; [done|].
    simpl. rewrite <- H1. by eapply write_text_stat_apart.
  - by eapply repair_directories_stat_off.
Qed.

Local Ltac no_prefix :=
  let H := fresh in
  intros H; apply prefix_app_inv in H; revert H;
  apply (bool_decide_unpack _); vm_compute; exact I.

Lemma observed_files_off_repairs (base q : path) :
  q ∈ observed_files base →
  (∀ d, d ∈ required_dirs base → ¬ q `prefix_of` d) ∧
  ¬ q `prefix_of` compose_file base ∧ ¬ compose_file base `prefix_of` q.
Proof.
  unfold observed_files, required_components, required_dirs, compose_file,
    package_file, dockerfile, metabase_bridge_file.
  intros Hq. simpl in Hq.
  repeat (apply elem_of_cons in Hq as [->|Hq]);
    [..|by apply elem_of_nil in Hq];
    (split_and!; [|no_prefix..]; intros d Hd;
     repeat (apply elem_of_cons in Hd as [->|Hd]);
     [..|by apply elem_of_nil in Hd]; no_prefix).
Qed.

(** ** Two evaluations that see the same files *)

Section Verdicts.
Variable R : Run → Run → Prop.
Hypothesis R_inputs : ∀ s t, R s t →
  base_path t = base_path s ∧
  ∀ q, q ∈ observed_files (base_path s) → stat (fs t) q = stat (fs s) q.
Hypothesis R_issue : ∀ i sev sol s t,
  R s t → R (record_issue i sev sol s).2 (record_issue i sev sol t).2.
Hypothesis R_validation : ∀ c st msg s t,
  R s t → R (record_validation c st msg s).2 (record_validation c st msg t).2.

Lemma alike_observed (s t : Run) (q : path) :
  R s t → q ∈ observed_files (base_path s) →
  exists_ (fs t) q = exists_ (fs s) q ∧ read_text (fs t) q = read_text (fs s) q.
Proof.
  intros H Hq. destruct (R_inputs _ _ H) as [_ Hs].
  unfold exists_, read_text. by rewrite (Hs q Hq).
Qed.

Local Ltac observed :=
  unfold observed_files, required_components; simpl;
  repeat first [apply list_elem_of_here | apply list_elem_of_further].

Lemma alike_validate_swift_package_structure (s t : Run) :
  R s t →
  (validate_swift_package_structure t).1 = (validate_swift_package_structure s).1 ∧
  R (validate_swift_package_structure s).2 (validate_swift_package_structure t).2.
Proof.
  intros H. rewrite !validate_swift_package_structure_run.
  destruct (R_inputs _ _ H) as [Hb _]. rewrite Hb.
  destruct (alike_observed s t (package_file (base_path s)) H)
    as [-> ->]; [observed|].
  destruct (exists_ (fs s) _); [|split; [done|by apply R_issue]].
  destruct (read_text (fs s) _) as [x|content];
    [split; [done|by apply R_issue]|].
  assert (H1 : R (check_package_elements content s).2
                 (check_package_elements content t).2).
  { unfold check_package_elements.
    destruct (collect_missing content required_elements []);
      [by apply R_validation|by apply R_issue]. }
  unfold check_metabase_bridge.
  destruct (contains "MetabaseBridge" content);
    (split; [done|]); [by apply R_validation|by apply R_issue].
Qed.

Lemma alike_validate_containerization (s t : Run) :
  R s t →
  (validate_containerization t).1 = (validate_containerization s).1 ∧
  R (validate_containerization s).2 (validate_containerization t).2.
Proof.
  intros H. rewrite !validate_containerization_run.
  destruct (R_inputs _ _ H) as [Hb _]. rewrite Hb.
  destruct (alike_observed s t (dockerfile (base_path s)) H)
    as [-> ->]; [observed|].
  destruct (exists_ (fs s) _); [|split; [done|by apply R_issue]].
  destruct (read_text (fs s) _) as [x|content]; [done|].
  split; [done|by apply R_issue].
Qed.

Lemma alike_validate_api_alignment (s t : Run) :
  R s t →
  (validate_api_alignment t).1 = (validate_api_alignment s).1 ∧
  R (validate_api_alignment s).2 (validate_api_alignment t).2.
Proof.
  intros H. rewrite !validate_api_alignment_run.
  destruct (R_inputs _ _ H) as [Hb _]. rewrite Hb.
  destruct (alike_observed s t (metabase_bridge_file (base_path s)) H)
    as [-> ->]; [observed|].
  destruct (exists_ (fs s) _); [|split; [done|by apply R_issue]].
  destruct (read_text (fs s) _) as [x|content]; [done|].
  destruct (collect_missing content required_endpoints []);
    (split; [done|]); [by apply R_validation|by apply R_issue].
Qed.

Lemma collect_missing_components_agree (root root' : node)
    (components : list (string * path)) :
  (∀ q, q ∈ components.*2 → exists_ root' q = exists_ root q) →
  ∀ missing, collect_missing_components root' components missing
             = collect_missing_components root components missing.
Proof.
  induction components as [|[name q] components IH]; intros H missing; [done|].
  simpl. rewrite (H q) by apply list_elem_of_here.
  destruct (exists_ root q); simpl; apply IH;
    intros q' Hq'; apply H; by apply list_elem_of_further.
Qed.

Lemma alike_validate_integration_components (s t : Run) :
  R s t →
  (validate_integration_components t).1
  = (validate_integration_components s).1 ∧
  R (validate_integration_components s).2
    (validate_integration_components t).2.
Proof.
  intros H. rewrite !validate_integration_components_run.
  destruct (R_inputs _ _ H) as [Hb _]. rewrite Hb.
  rewrite (collect_missing_components_agree (fs s) (fs t)).
  - destruct (collect_missing_components _ _ _);
      (split; [done|]); [by apply R_validation|by apply R_issue].
  - intros q Hq. apply (alike_observed s t q H).
    unfold observed_files. apply elem_of_app. by right.
Qed.

Lemma alike_evaluate (s t : Run) :
  R s t → (evaluate t).1 = (evaluate s).1 ∧ R (evaluate s).2 (evaluate t).2.
Proof.
  intros H. rewrite !evaluate_run.
  destruct (alike_validate_swift_package_structure s t H) as [_ H1].
  destruct (alike_validate_containerization _ _ H1) as [E2 H2].
  destruct (validate_containerization (validate_swift_package_structure s).2)
    as [[[]|x] s2];
    destruct (validate_containerization (validate_swift_package_structure t).2)
    as [[[]|y] t2]; simpl in E2, H2; try done.
  destruct (alike_validate_api_alignment _ _ H2) as [E3 H3].
  destruct (validate_api_alignment s2) as [[[]|x] s3];
    destruct (validate_api_alignment t2) as [[[]|y] t3];
    simpl in E3, H3; try done.
  exact (alike_validate_integration_components _ _ H3).
Qed.
End Verdicts.

(** ** Evaluating before and after repairs *)

Lemma same_verdict_inputs_issue (i sev sol : string) (s t : Run) :
  same_verdict_inputs s t →
  same_verdict_inputs (record_issue i sev sol s).2 (record_issue i sev sol t).2.
Proof.
  intros (Hb & Hv & Hi & Hc & Ht & Hs). rewrite !record_issue_run.
  unfold same_verdict_inputs. simpl. by rewrite Hb, Hv, Hi, Hc, Ht.
Qed.

Lemma same_verdict_inputs_validation (c st msg : string) (s t : Run) :
  same_verdict_inputs s t →
  same_verdict_inputs (record_validation c st msg s).2
    (record_validation c st msg t).2.
Proof.
  intros (Hb & Hv & Hi & Hc & Ht & Hs). rewrite !record_validation_run.
  unfold same_verdict_inputs. simpl. by rewrite Hb, Hv, Hi, Hc, Ht.
Qed.

Lemma only_repaired_apply_automatic_repairs (s : Run) :
  only_repaired s (apply_automatic_repairs s).2.
Proof.
  apply keeps_apply_automatic_repairs; try done.
  unfold only_repaired. intros s1 s2 s3 (-> & -> & -> & -> & ->). done.
Qed.

(** X5.  The Repair Engine changes nothing the evaluator looks at:
    evaluating from the state the engine leaves (whether it returned or
    raised) ends the same way, with the same issues and the same records,
    as evaluating from the state it started from.  No repair resolves an
    Issue, and none causes one. *)
Theorem repairs_do_not_change_verdicts (s : Run) :
  let repaired := (apply_automatic_repairs s).2 in
  (evaluate repaired).1 = (evaluate s).1 ∧
  issues_found (evaluate repaired).2 = issues_found (evaluate s).2 ∧
  validation_results (evaluate repaired).2 = validation_results (evaluate s).2.
Proof.
  simpl.
  assert (H : same_verdict_inputs s (apply_automatic_repairs s).2).
  { destruct (only_repaired_apply_automatic_repairs s)
      as (Hb & Hv & Hi & Hc & Ht).
    unfold same_verdict_inputs. split_and!; try done.
    intros q Hq.
    destruct (observed_files_off_repairs _ _ Hq) as (Hd & Hqc & Hcq).
    by apply apply_automatic_repairs_stat_off. }
  destruct (alike_evaluate same_verdict_inputs) with (s := s)
    (t := (apply_automatic_repairs s).2) as [E (_ & Hv & Hi & _)];
    [by intros s0 t0 (? & _ & _ & _ & _ & ?)
    |exact same_verdict_inputs_issue|exact same_verdict_inputs_validation
    |exact H|done].
Qed.

(** ** Evaluating twice *)

Lemma evaluated_alike_issue (a b : Run) (i sev sol : string) (s t : Run) :
  evaluated_alike a b s t →
  evaluated_alike a b (record_issue i sev sol s).2 (record_issue i sev sol t).2.
Proof.
  intros (Hb & Hs & (l & l' & Hl & Hl' & Ht) & Hk). rewrite !record_issue_run.
  unfold evaluated_alike. simpl. split_and!; [done..| |done].
  exists (l ++ [mkIssue i sev sol (clock s (ticks s))]),
         (l' ++ [mkIssue i sev sol (clock t (ticks t))]).
  rewrite Hl, Hl', <- !app_assoc. split_and!; [done..|].
  by rewrite !fmap_app, Ht.
Qed.

Lemma evaluated_alike_validation (a b : Run) (c st msg : string) (s t : Run) :
  evaluated_alike a b s t →
  evaluated_alike a b (record_validation c st msg s).2
    (record_validation c st msg t).2.
Proof.
  intros (Hb & Hs & Hl & Hk). rewrite !record_validation_run.
  unfold evaluated_alike. simpl. split_and!; [done..|].
  intros k. rewrite !lookup_insert_is_Some.
  intros [->|[Hne Hin]]; [right; by left|].
  destruct (Hk k Hin); [by left|right; by right].
Qed.

Lemma evaluate_same_artifacts (s : Run) : same_artifacts s (evaluate s).2.
Proof.
  apply preserves_evaluate; first [exact same_artifacts_trans | done].
Qed.

(** X12.  Evaluating a second time on the same validator, with the tree
    unchanged, ends the way the first evaluation did and appends issues
    that say the same, so every Issue is then recorded twice; the second
    evaluation stores no component that the first had not stored. *)
Theorem evaluating_twice_repeats_issues (s : Run) :
  let first := evaluate s in
  let second := evaluate first.2 in
  second.1 = first.1 ∧
  (∃ l l', issues_found first.2 = issues_found s ++ l ∧
           issues_found second.2 = issues_found first.2 ++ l' ∧
           issue_text <$> l' = issue_text <$> l) ∧
  (∀ k, is_Some (validation_results second.2 !! k) ↔
        is_Some (validation_results first.2 !! k)).
Proof.
  simpl.
  destruct (evaluate_same_artifacts s) as (Hf & Hb & _).
  assert (H : evaluated_alike s (evaluate s).2 s (evaluate s).2).
  { unfold evaluated_alike. split_and!; [done|by rewrite Hf| |by left].
    exists [], []. by rewrite !app_nil_r. }
  destruct (alike_evaluate (evaluated_alike s (evaluate s).2)) with (s := s)
    (t := (evaluate s).2) as [E (_ & _ & Hl & Hk)];
    [by intros s0 t0 (? & ? & _)
    |exact (evaluated_alike_issue _ _)|exact (evaluated_alike_validation _ _)
    |exact H|].
  split_and!; [done|done|]. intros k. split.
  - intros Hin. by destruct (Hk k Hin).
  - destruct (evaluate_grows (evaluate s).2) as (_ & _ & _ & _ & _ & Hkeep & _).
    apply Hkeep.
Qed.

(** ** Existing files *)

(** A call that succeeds on [p] went through directories only: a regular
    file on the way can only be [p] itself. *)
Lemma update_entry_file_on_path (root_err : errno) leaf (p : path) :
  ∀ n n' q r w c, update_entry root_err leaf n p = inr n' →
    stat n q = inr (File r w c) → q `prefix_of` p → q = p.
Proof.
  induction p as [|x p IH]; intros n n' q r w c H Hs Hqp; simpl in H; [done|].
  destruct n as [fr fw fc|dw es]; [done|].
  destruct q as [|z q]; [done|].
  pose proof (prefix_cons_inv_1 _ _ _ _ Hqp) as ->.
  apply prefix_cons_inv_2 in Hqp. f_equal.
  simpl in Hs. destruct (es !! x) as [c0|] eqn:Hx; [|done].
  destruct p as [|y p].
  - by apply prefix_nil_inv in Hqp.
  - destruct (update_entry root_err leaf c0 (y :: p)) as [e|c'] eqn:Hc; [done|].
    by eapply IH.
Qed.

Lemma os_mkdir_new (p : path) :
  ∀ n n', os_mkdir n p = inr n' → exists_ n p = false.
Proof.
  unfold os_mkdir, exists_.
  induction p as [|x p IH]; intros n n' H; simpl in H; [done|].
  destruct n as [r w c|w es]; [done|]. simpl.
  destruct p as [|y p].
  - by destruct (es !! x).
  - destruct (es !! x) as [c|]; [|done].
    destruct (update_entry EEXIST mkdir_leaf c (y :: p)) as [e|c'] eqn:Hc; [done|].
    by eapply IH.
Qed.

Lemma os_mkdir_keeps_file (n n' : node) (p q : path) (r w : bool) (c : string) :
  os_mkdir n p = inr n' → stat n q = inr (File r w c) →
  stat n' q = inr (File r w c).
Proof.
  intros H Hs. destruct (decide (q `prefix_of` p)) as [Hqp|Hqp].
  - pose proof (update_entry_file_on_path _ _ _ _ _ _ _ _ _ H Hs Hqp) as ->.
    apply os_mkdir_new in H. unfold exists_ in H. by rewrite Hs in H.
  - by rewrite (os_mkdir_stat_off _ _ _ _ H Hqp).
Qed.

Lemma mkdir_parents_rev_keeps_file (rp : list string) (q : path)
    (r w : bool) (c : string) :
  ∀ root root' o, mkdir_parents_rev root rp = (o, root') →
    stat root q = inr (File r w c) → stat root' q = inr (File r w c).
Proof.
  induction rp as [|y rp IH]; intros root root' o H Hs.
  - simpl in H. destruct (is_dir root []); by injection H as _ <-.
  - simpl in H.
    destruct (os_mkdir root (rev rp ++ [y])) as [e|n1] eqn:Hm.
    + assert (Hother : (if is_dir root (rev rp ++ [y]) then (None, root)
                        else (Some (OSError e (rev rp ++ [y])), root))
                       = (o, root') → stat root' q = inr (File r w c)).
      { destruct (is_dir root (rev rp ++ [y])); by intros [= _ <-]. }
      destruct e; try (by apply Hother).
      destruct (mkdir_parents_rev root rp) as [[x1|] root1] eqn:Hr.
      * injection H as _ <-. by eapply IH.
      * specialize (IH _ _ _ Hr Hs).
        destruct (mkdir_exist_ok_cases root1 (rev rp ++ [y]))
          as [(n1 & Hm1 & E)|[[_ E]|[x E]]];
          rewrite E in H; injection H as _ <-; [|done..].
        by eapply os_mkdir_keeps_file.
    + injection H as _ <-. by eapply os_mkdir_keeps_file.
Qed.

Lemma write_text_new_keeps_file (root root' : node) (p q : path)
    (text : string) (r w : bool) (c : string) :
  write_text root p text = inr root' → exists_ root p = false →
  stat root q = inr (File r w c) → stat root' q = inr (File r w c).
Proof.
  unfold write_text.
  destruct (update_entry EISDIR (write_leaf text) root p) as [e|n'] eqn:H;
    [done|].
  intros [= <-] Hex Hs.
  destruct (decide (q `prefix_of` p)) as [Hqp|Hqp].
  - pose proof (update_entry_file_on_path _ _ _ _ _ _ _ _ _ H Hs Hqp) as ->.
    unfold exists_ in Hex. by rewrite Hs in Hex.
  - destruct (decide (p `prefix_of` q)) as [Hpq|Hpq].
    + pose proof (exists_prefix _ _ _ Hpq Hex) as Hq.
      unfold exists_ in Hq. by rewrite Hs in Hq.
    + by rewrite (update_entry_stat_apart _ _ _ _ _ _ H Hqp Hpq).
Qed.

Lemma repair_directories_keep_file (ds : list path) (q : path)
    (r w : bool) (c : string) :
  ∀ s s' o, repair_directories ds s = (o, s') →
    stat (fs s) q = inr (File r w c) → stat (fs s') q = inr (File r w c).
Proof.
  induction ds as [|d ds IH]; intros s s' o H Hs.
  - by injection H as _ <-.
  - simpl in H. rewrite bind_run in H.
    assert (Hd : ∀ o1 s1, repair_directory d s = (o1, s1) →
                   stat (fs s1) q = inr (File r w c)).
    { intros o1 s1 E1.
      destruct (repair_directory_cases d s)
        as [[_ E]|[(x & _ & _ & E)|(root' & _ & Hm & E)]];
        rewrite E in E1; injection E1 as _ <-; [done..|].
      simpl. by eapply mkdir_parents_rev_keeps_file. }
    destruct (repair_directory d s) as [[[]|x] s1] eqn:E1.
    + eapply IH; [exact H|]. by eapply Hd.
    + injection H as _ <-. by eapply Hd.
Qed.

(** X6.  The Repair Engine never touches an existing regular file:
    whatever it does and however it ends, a path that was a regular file
    before is the same file afterwards, with the same text and the same
    permissions. *)
Theorem repairs_keep_existing_files (s : Run) (q : path) (r w : bool)
    (c : string) :
  stat (fs s) q = inr (File r w c) →
  stat (fs (apply_automatic_repairs s).2) q = inr (File r w c) ∧
  read_text (fs (apply_automatic_repairs s).2) q = read_text (fs s) q.
Proof.
  intros Hs.
  assert (H : stat (fs (apply_automatic_repairs s).2) q = inr (File r w c)).
  { rewrite apply_automatic_repairs_run.
    destruct (repair_directories (required_dirs (base_path s)) s)
      as [[[]|y] s1] eqn:Hr.
    - pose proof (repair_directories_keep_file _ _ _ _ _ _ _ _ Hr Hs) as H1.
      rewrite repair_configuration_files_run.
      destruct (exists_ (fs s1) _) eqn:Hex; [done|].
      destruct (write_text (fs s1) _ basic_compose) as [x|root'] eqn:Hw;
        [done|].
      simpl. by eapply write_text_new_keeps_file.
    - by eapply repair_directories_keep_file. }
  split; [done|]. unfold read_text. by rewrite H, Hs.
Qed.

Lemma repairs_keep_existing_files_witness :
  read_text (fs (apply_automatic_repairs unreadable_package_project).2)
    ["proj"; "swift-package"; "Package.swift"]
  = inl (OSError EACCES ["proj"; "swift-package"; "Package.swift"]) ∧
  stat (fs (apply_automatic_repairs partial_bridge_project).2)
    (metabase_bridge_file ["proj"])
  = inr (File true true "/health").
Proof.
  split.
  - rewrite (proj2 (repairs_keep_existing_files unreadable_package_project
                      ["proj"; "swift-package"; "Package.swift"]
                      false true "name:" eq_refl)).
    vm_compute. reflexivity.
  - apply (repairs_keep_existing_files partial_bridge_project).
    vm_compute. reflexivity.
Defined.

(** ** When a rule passes *)










